(** * Circuit breaker of resilient-service-system: state mutator and state reader

    A shallow embedding of [functions/mutator.js] (the Lambda that applies
    FAILURE, SUCCESS and RESET to the singleton DynamoDB record) and of the
    get-state Lambda that reads it, together with the properties of the
    hysteresis state machine. The tier services of [functions/services.js],
    the load profile of [scripts/k6-test.js] and the API handler follow, the
    last one over the JSON functions and the Step Functions client it is
    given.

    Modelling conventions.
    - A DynamoDB item is a record of optional attributes: an attribute that
      the item does not carry reads as [undefined] in JavaScript, here [None].
    - Numbers are integer counters, kept as [Z]. The embedding is exact for
      counters inside JavaScript's safe-integer range.
    - The table is a finite map from partition key to item.
    - A Lambda invocation is a function from the table to an outcome and the
      table it leaves behind; [docClient.send] is the only way it touches
      the table. The store is assumed to be available (no transport errors).
    - [new Date().toISOString()] is the argument [now] of every handler. *)

From Stdlib Require Import ZArith String List Lia.
From stdpp Require Import base option gmap strings list fin_maps.

Local Open Scope string_scope.
Local Open Scope Z_scope.

(** ** JavaScript values carried by the invocation event *)

Inductive JsValue : Type :=
  | JUndefined
  | JNull
  | JBool (b : bool)
  | JNum (n : Z)
  | JStr (s : string).

#[global] Instance JsValue_eq_dec : EqDecision JsValue.
Proof. solve_decision. Defined.

(** The event of the mutator: [{ action, hadErrorFlag }]. *)
Record Event : Type := mkEvent {
  action : JsValue;
  hadErrorFlag : JsValue;
}.

(** [x === true] *)
Definition strict_true (x : JsValue) : bool :=
  match x with
  | JBool true => true
  | _ => false
  end.

(** [x === 'literal'] *)
Definition strict_str (x : JsValue) (lit : string) : bool :=
  match x with
  | JStr s => bool_decide (s = lit)
  | _ => false
  end.

(** [x || d] on a number that may be undefined: [undefined] and [0] are
    falsy, every other number is kept. *)
Definition js_or (x : option Z) (d : Z) : Z :=
  match x with
  | Some 0 => d
  | Some v => v
  | None => d
  end.

(** [x >= n] where [x] may be undefined ([undefined >= n] is [false]). *)
Definition js_ge (x : option Z) (n : Z) : bool :=
  match x with
  | Some v => n <=? v
  | None => false
  end.

(** ** The DynamoDB table *)

Record Item : Type := mkItem {
  errorCount : option Z;
  currentLevel : option Z;
  recoveryPoints : option Z;
  lastUpdated : option string;
}.

#[global] Instance Item_eq_dec : EqDecision Item.
Proof. solve_decision. Defined.

(** An item that carries only its key. *)
Definition emptyItem : Item := mkItem None None None None.

Definition PK : string := "SYSTEM_STATE".

(** The update expressions used by the handlers: a [SET] clause is a list
    of assignments, each to a numeric attribute or to [lastUpdated]. *)
Inductive NumAttr : Type := ErrorCount | CurrentLevel | RecoveryPoints.

Inductive Operand : Type :=
  | Lit (n : Z)
  | IfNotExistsPlus (a : NumAttr) (dflt inc : Z).

Inductive SetAction : Type :=
  | SetNum (a : NumAttr) (v : Operand)
  | SetLastUpdated (s : string).

Definition getNum (a : NumAttr) (it : Item) : option Z :=
  match a with
  | ErrorCount => errorCount it
  | CurrentLevel => currentLevel it
  | RecoveryPoints => recoveryPoints it
  end.

Definition putNum (a : NumAttr) (v : Z) (it : Item) : Item :=
  match a with
  | ErrorCount =>
      mkItem (Some v) (currentLevel it) (recoveryPoints it) (lastUpdated it)
  | CurrentLevel =>
      mkItem (errorCount it) (Some v) (recoveryPoints it) (lastUpdated it)
  | RecoveryPoints =>
      mkItem (errorCount it) (currentLevel it) (Some v) (lastUpdated it)
  end.

Definition putLastUpdated (s : string) (it : Item) : Item :=
  mkItem (errorCount it) (currentLevel it) (recoveryPoints it) (Some s).

(** Operands are evaluated against the item as it was before the update. *)
Definition evalOperand (old : Item) (v : Operand) : Z :=
  match v with
  | Lit n => n
  | IfNotExistsPlus a dflt inc => default dflt (getNum a old) + inc
  end.

Definition applySet (old : Item) (acc : Item) (s : SetAction) : Item :=
  match s with
  | SetNum a v => putNum a (evalOperand old v) acc
  | SetLastUpdated ts => putLastUpdated ts acc
  end.

Definition updateItem (old : Item) (sets : list SetAction) : Item :=
  foldl (applySet old) old sets.

(** ** Lambda invocations: table passing with rejection *)

Inductive Error : Type :=
  | UnknownAction (a : JsValue).   (* new Error(`Unknown action: ${action}`) *)

Inductive Outcome (A : Type) : Type :=
  | Resolved (a : A)
  | Rejected (e : Error).
Arguments Resolved {A} a.
Arguments Rejected {A} e.

Definition Lambda (A : Type) : Type :=
  gmap string Item → Outcome A * gmap string Item.

#[global] Instance Lambda_ret : MRet Lambda :=
  λ A a tbl, (Resolved a, tbl).

#[global] Instance Lambda_bind : MBind Lambda :=
  λ A B f m tbl,
    match m tbl with
    | (Resolved a, tbl') => f a tbl'
    | (Rejected e, tbl') => (Rejected e, tbl')
    end.

Definition throw {A : Type} (e : Error) : Lambda A :=
  λ tbl, (Rejected e, tbl).

(** [try { body } catch (error) { handler(error) }] *)
Definition try_catch {A : Type} (body : Lambda A) (handler : Error → Lambda A)
  : Lambda A :=
  λ tbl,
    match body tbl with
    | (Resolved a, tbl') => (Resolved a, tbl')
    | (Rejected e, tbl') => handler e tbl'
    end.

(** [docClient.send(new GetCommand({ Key }))]: the result's [Item]. *)
Definition sendGet (key : string) : Lambda (option Item) :=
  λ tbl, (Resolved (tbl !! key), tbl).

(** [docClient.send(new UpdateCommand({ Key, UpdateExpression,
    ReturnValues: 'ALL_NEW' }))]: creates the item when the key is absent,
    and returns the result's [Attributes]. *)
Definition sendUpdate (key : string) (sets : list SetAction) : Lambda Item :=
  λ tbl,
    let new := updateItem (default emptyItem (tbl !! key)) sets in
    (Resolved new, <[key := new]> tbl).

(** ** functions/mutator.js *)

Module THRESHOLDS.
Definition DEGRADE_TO_L2 : Z := 5.        (* Degrade from L1 to L2 *)
Definition DEGRADE_TO_L3 : Z := 10.       (* Degrade from L2 to L3 *)
Definition RECOVERY_POINTS : Z := 10.     (* Consecutive successes needed to promote *)
End THRESHOLDS.

(** The object returned by the mutator. Fields that a branch does not set,
    or that may hold [undefined], are optional. *)
Record MutatorResult : Type := mkResult {
  res_action : string;
  res_errorCount : option Z;
  res_currentLevel : Z;
  res_recoveryPoints : option Z;
  res_levelChanged : bool;
  res_lastUpdated : option string;
  res_message : option string;
}.

Definition handleFailure (now : string) : Lambda MutatorResult :=
  updateResult ← sendUpdate PK
    [ SetNum ErrorCount (IfNotExistsPlus ErrorCount 0 1);
      SetNum RecoveryPoints (Lit 0);
      SetLastUpdated now ];
  let newErrorCount := errorCount updateResult in
  let currentLevel := js_or (currentLevel updateResult) 1 in
  let newLevel :=
    if js_ge newErrorCount THRESHOLDS.DEGRADE_TO_L3 && (currentLevel <? 3)
    then 3
    else if js_ge newErrorCount THRESHOLDS.DEGRADE_TO_L2 && (currentLevel <? 2)
    then 2
    else currentLevel in
  if negb (newLevel =? currentLevel) then
    levelResult ← sendUpdate PK
      [ SetNum CurrentLevel (Lit newLevel); SetLastUpdated now ];
    mret (mkResult "FAILURE" newErrorCount newLevel None true
            (lastUpdated levelResult) None)
  else
    mret (mkResult "FAILURE" newErrorCount currentLevel None false
            (Some now) None).

Definition handleSuccess (event : Event) (now : string)
  : Lambda MutatorResult :=
  let hadErrorFlag := strict_true (hadErrorFlag event) in
  getResult ← sendGet PK;
  match getResult with
  | None =>
      _ ← sendUpdate PK
        [ SetNum ErrorCount (Lit 0); SetNum CurrentLevel (Lit 1);
          SetNum RecoveryPoints (Lit 0); SetLastUpdated now ];
      mret (mkResult "SUCCESS" (Some 0) 1 (Some 0) false (Some now) None)
  | Some item =>
      let currentErrorCount := js_or (errorCount item) 0 in
      let currentLevel := js_or (currentLevel item) 1 in
      let currentRecoveryPoints := js_or (recoveryPoints item) 0 in
      let '(newErrorCount, newLevel, newRecoveryPoints) :=
        if currentLevel =? 1 then
          (Z.max 0 (currentErrorCount - 1), currentLevel, 0)
        else if hadErrorFlag then
          let newErrorCount := currentErrorCount + 1 in
          let newLevel :=
            if (THRESHOLDS.DEGRADE_TO_L3 <=? newErrorCount)
               && (currentLevel <? 3)
            then 3 else currentLevel in
          (newErrorCount, newLevel, 0)
        else
          let newRecoveryPoints := currentRecoveryPoints + 1 in
          if THRESHOLDS.RECOVERY_POINTS <=? newRecoveryPoints then
            let newLevel :=
              if currentLevel =? 3 then 2
              else if currentLevel =? 2 then 1
              else currentLevel in
            (0, newLevel, 0)
          else
            (currentErrorCount, currentLevel, newRecoveryPoints) in
      updateResult ← sendUpdate PK
        [ SetNum ErrorCount (Lit newErrorCount);
          SetNum CurrentLevel (Lit newLevel);
          SetNum RecoveryPoints (Lit newRecoveryPoints);
          SetLastUpdated now ];
      mret (mkResult "SUCCESS" (Some newErrorCount) newLevel
              (Some newRecoveryPoints) (negb (newLevel =? currentLevel))
              (lastUpdated updateResult) None)
  end.

Definition handleReset (now : string) : Lambda MutatorResult :=
  _ ← sendUpdate PK
    [ SetNum ErrorCount (Lit 0); SetNum CurrentLevel (Lit 1);
      SetNum RecoveryPoints (Lit 0); SetLastUpdated now ];
  mret (mkResult "RESET" (Some 0) 1 (Some 0) true (Some now)
          (Some "System reset to Full Capacity")).

(** [exports.handler] of the mutator. The catch block logs and rethrows. *)
Definition handler (event : Event) (now : string) : Lambda MutatorResult :=
  try_catch
    (if strict_str (action event) "FAILURE" then handleFailure now
     else if strict_str (action event) "SUCCESS" then handleSuccess event now
     else if strict_str (action event) "RESET" then handleReset now
     else throw (UnknownAction (action event)))
    (λ error, throw error).

(** ** The get-state Lambda *)

(** The object returned by get-state. *)
Record SystemState : Type := mkSystemState {
  st_currentLevel : option Z;
  st_errorCount : option Z;
  st_lastUpdated : option string;
}.

Definition getState : Lambda SystemState :=
  try_catch
    (result ← sendGet PK;
     match result with
     | None => mret (mkSystemState (Some 1) (Some 0) None)
     | Some item =>
         mret (mkSystemState (currentLevel item) (errorCount item)
                 (lastUpdated item))
     end)
    (λ error, throw error).

(** ** Views of the stored record and runs of the mutator *)

(** The record under the singleton key. *)
Definition stored (tbl : gmap string Item) : option Item := tbl !! PK.

(** The tier, error count and recovery points as the mutator reads them:
    [Item.currentLevel || 1], [Item.errorCount || 0],
    [Item.recoveryPoints || 0], and the default record when the key is
    absent. *)
Definition tierOf (o : option Item) : Z := js_or (o ≫= currentLevel) 1.
Definition errorsOf (o : option Item) : Z := js_or (o ≫= errorCount) 0.
Definition pointsOf (o : option Item) : Z := js_or (o ≫= recoveryPoints) 0.

Definition tier (tbl : gmap string Item) : Z := tierOf (stored tbl).
Definition errors (tbl : gmap string Item) : Z := errorsOf (stored tbl).
Definition points (tbl : gmap string Item) : Z := pointsOf (stored tbl).

(** The table an invocation leaves behind, and what it resolves to. *)
Definition tableAfter {A : Type} (m : Lambda A) (tbl : gmap string Item)
  : gmap string Item := (m tbl).2.
Definition outcomeOf {A : Type} (m : Lambda A) (tbl : gmap string Item)
  : Outcome A := (m tbl).1.

(** The events sent by the workflow. *)
Definition FAILURE : Event := mkEvent (JStr "FAILURE") JUndefined.
Definition SUCCESS (flag : bool) : Event :=
  mkEvent (JStr "SUCCESS") (JBool flag).
Definition RESET : Event := mkEvent (JStr "RESET") JUndefined.

(** A sequential run: each invocation comes with its event and its clock
    reading. *)
Definition run (calls : list (Event * string)) (tbl : gmap string Item)
  : gmap string Item :=
  foldl (λ t call, tableAfter (handler call.1 call.2) t) tbl calls.

(** The same event at each of the given clock readings. *)
Definition times (ev : Event) (clock : list string) : list (Event * string) :=
  (λ now, (ev, now)) <$> clock.

(** The stored record is the default one: absent, or present with tier 1
    and both counters at zero. *)
Definition isDefault (o : option Item) : bool :=
  match o with
  | None => true
  | Some it =>
      bool_decide (currentLevel it = Some 1 ∧ errorCount it = Some 0
                   ∧ recoveryPoints it = Some 0)
  end.

(** Closed forms of the record written by each transition. *)
Definition failureLevel (e t : Z) : Z :=
  if (THRESHOLDS.DEGRADE_TO_L3 <=? e) && (t <? 3) then 3
  else if (THRESHOLDS.DEGRADE_TO_L2 <=? e) && (t <? 2) then 2
  else t.

Definition afterFailure (now : string) (o : option Item) : Item :=
  let e := default 0 (o ≫= errorCount) + 1 in
  let t := tierOf o in
  let t' := failureLevel e t in
  mkItem (Some e) (if t' =? t then o ≫= currentLevel else Some t')
    (Some 0) (Some now).

Definition successFields (flag : bool) (e t p : Z) : Z * Z * Z :=
  if t =? 1 then (Z.max 0 (e - 1), t, 0)
  else if flag then
    (e + 1,
     if (THRESHOLDS.DEGRADE_TO_L3 <=? e + 1) && (t <? 3) then 3 else t, 0)
  else if THRESHOLDS.RECOVERY_POINTS <=? p + 1 then
    (0, if t =? 3 then 2 else if t =? 2 then 1 else t, 0)
  else (e, t, p + 1).

Definition afterSuccess (flag : bool) (now : string) (o : option Item)
  : Item :=
  match o with
  | None => mkItem (Some 0) (Some 1) (Some 0) (Some now)
  | Some _ =>
      let '(e, t, p) := successFields flag (errorsOf o) (tierOf o) (pointsOf o) in
      mkItem (Some e) (Some t) (Some p) (Some now)
  end.

Definition afterReset (now : string) : Item :=
  mkItem (Some 0) (Some 1) (Some 0) (Some now).

(** What the mutator reads from the table: error count, tier, recovery
    points. *)
Definition view (tbl : gmap string Item) : Z * Z * Z :=
  (errors tbl, tier tbl, points tbl).

(** An action the mutator knows. *)
Definition knownAction (a : JsValue) : bool :=
  strict_str a "FAILURE" || strict_str a "SUCCESS" || strict_str a "RESET".

(** The object a success resolves to. *)
Definition successResult (flag : bool) (now : string) (o : option Item)
  : MutatorResult :=
  match o with
  | None => mkResult "SUCCESS" (Some 0) 1 (Some 0) false (Some now) None
  | Some _ =>
      let '(e, t, p) := successFields flag (errorsOf o) (tierOf o) (pointsOf o) in
      mkResult "SUCCESS" (Some e) t (Some p) (negb (t =? tierOf o))
        (Some now) None
  end.

(** One invocation of the entry point, on the stored record and on the
    view. *)
Definition stepStored (event : Event) (now : string) (o : option Item)
  : option Item :=
  if strict_str (action event) "FAILURE" then Some (afterFailure now o)
  else if strict_str (action event) "SUCCESS" then
    Some (afterSuccess (strict_true (hadErrorFlag event)) now o)
  else if strict_str (action event) "RESET" then Some (afterReset now)
  else o.

Definition stepView (event : Event) (v : Z * Z * Z) : Z * Z * Z :=
  let '(e, t, p) := v in
  if strict_str (action event) "FAILURE" then
    (e + 1, failureLevel (e + 1) t, 0)
  else if strict_str (action event) "SUCCESS" then
    successFields (strict_true (hadErrorFlag event)) e t p
  else if strict_str (action event) "RESET" then (0, 1, 0)
  else v.

(** Tier 1 carries fewer than [DEGRADE_TO_L2] errors, tier 2 fewer than
    [DEGRADE_TO_L3], and a recovery streak is shorter than
    [RECOVERY_POINTS]. *)
Definition sound (v : Z * Z * Z) : Prop :=
  let '(e, t, p) := v in
  1 ≤ t ≤ 3 ∧ 0 ≤ e ∧ 0 ≤ p < THRESHOLDS.RECOVERY_POINTS
  ∧ (t = 1 → e < THRESHOLDS.DEGRADE_TO_L2)
  ∧ (t = 2 → e < THRESHOLDS.DEGRADE_TO_L3).

(** ** functions/services.js *)

(** The event of a tier service: [{ error }]. *)
Record ServiceEvent : Type := mkServiceEvent {
  error : JsValue;
}.

(** The object returned by a tier service. *)
Record ServiceResult : Type := mkServiceResult {
  svc_status : Z;
  svc_level : Z;
  svc_msg : string;
}.

(** A service touches no store: it returns, or throws an [Error] with the
    given message. *)
Inductive ServiceOutcome : Type :=
  | Returned (result : ServiceResult)
  | Threw (message : string).

(** [try { body } catch (error) { console.error(...); throw error; }] *)
Definition rethrow (body : ServiceOutcome) : ServiceOutcome :=
  match body with
  | Returned result => Returned result
  | Threw message => Threw message
  end.

Definition serviceL1 (event : ServiceEvent) : ServiceOutcome :=
  rethrow
    (if strict_true (error event) then Threw "CRITICAL_FAILURE"
     else Returned (mkServiceResult 200 1 "Full Capacity")).

Definition serviceL2 (event : ServiceEvent) : ServiceOutcome :=
  rethrow (Returned (mkServiceResult 200 2 "Degraded Mode")).

(** ** scripts/k6-test.js *)

Module K6.

(** [options.scenarios.dynamic_payload_scenario.iterations] *)
Definition iterations : nat := 140.

(** [Math.floor(currentIteration / 20) + 1] *)
Definition minute (currentIteration : nat) : nat :=
  (currentIteration / 20 + 1)%nat.

(** The [error] field of the payload of the iteration. With the single
    virtual user of the scenario, [currentIteration] counts the calls of the
    default function from 0. *)
Definition errorValue (currentIteration : nat) : bool :=
  if (minute currentIteration =? 1)%nat then
    (currentIteration mod 20 <? 5)%nat
  else if (minute currentIteration =? 3)%nat then
    (currentIteration mod 20 <? 15)%nat
  else if (minute currentIteration =? 5)%nat then
    (currentIteration mod 20 <? 15)%nat
  else false.

End K6.

(** ** The API handler (entry point behind the API gateway) *)

Module Api.

(** JSON values, as [JSON.parse] returns them; an object lists its
    properties in order, each key once. *)
#[warnings="-register-all"] Inductive Json (Num : Type) : Type :=
  | JsonNull
  | JsonBool (b : bool)
  | JsonNum (n : Num)
  | JsonStr (s : string)
  | JsonArr (items : list (Json Num))
  | JsonObj (fields : list (string * Json Num)).
Arguments JsonNull {Num}.
Arguments JsonBool {Num} b.
Arguments JsonNum {Num} n.
Arguments JsonStr {Num} s.
Arguments JsonArr {Num} items.
Arguments JsonObj {Num} fields.

(** [status] of the result of a synchronous execution. *)
Inductive SyncExecutionStatus : Type := SUCCEEDED | FAILED | TIMED_OUT.

(** The fields of the result of [StartSyncExecutionCommand] that the
    handler reads. *)
Record SyncExecution : Type := mkSyncExecution {
  exec_status : SyncExecutionStatus;
  exec_output : option string;
  exec_error : option string;
  exec_cause : option string;
}.

(** What the handler takes from its surroundings: the numbers of the
    engine, [JSON.parse] and [JSON.stringify], the message of the [TypeError]
    raised by reading a property of [null], and the Step Functions client.
    A function that can throw returns the message of the error on the
    left. *)
Class Runtime : Type := {
  Num : Type;
  number : Z → Num;
  isZeroOrNaN : Num → bool;
  JSON_parse : string → string + Json Num;
  JSON_stringify : Json Num → string;
  nullPropertyMessage : string;
  startSyncExecution : string → string + SyncExecution;
}.

(** An invocation threads the inputs sent to Step Functions so far and may
    throw. *)
Definition M (A : Type) : Type := list string → (string + A) * list string.

#[global] Instance M_ret : MRet M := λ A a sent, (inr a, sent).

#[global] Instance M_bind : MBind M :=
  λ A B f m sent,
    match m sent with
    | (inr a, sent') => f a sent'
    | (inl message, sent') => (inl message, sent')
    end.

Definition lift {A : Type} (r : string + A) : M A := λ sent, (r, sent).

Definition tryCatch {A : Type} (body : M A) (handler : string → M A) : M A :=
  λ sent,
    match body sent with
    | (inr a, sent') => (inr a, sent')
    | (inl message, sent') => handler message sent'
    end.

(** [sfnClient.send(new StartSyncExecutionCommand({ stateMachineArn,
    input }))] *)
Definition send `{Runtime} (input : string) : M SyncExecution :=
  λ sent, (startSyncExecution input, (sent ++ [input])%list).

Fixpoint lookupField {Num : Type} (key : string)
    (fields : list (string * Json Num)) : option (Json Num) :=
  match fields with
  | [] => None
  | (k, v) :: rest => if bool_decide (k = key) then Some v
                      else lookupField key rest
  end.

(** [value.key]: a [TypeError] on [null], [undefined] on the values that
    have no such property. The key is not the name of a built-in property. *)
Definition getProperty `{Runtime} (value : Json Num) (key : string)
  : M (option (Json Num)) :=
  match value with
  | JsonNull => lift (inl nullPropertyMessage)
  | JsonObj fields => mret (lookupField key fields)
  | _ => mret None
  end.

(** Truthiness of a value that may be [undefined]. *)
Definition truthy `{Runtime} (value : option (Json Num)) : bool :=
  match value with
  | None => false
  | Some JsonNull => false
  | Some (JsonBool b) => b
  | Some (JsonNum n) => negb (isZeroOrNaN n)
  | Some (JsonStr s) => negb (bool_decide (s = ""))
  | Some (JsonArr _) => true
  | Some (JsonObj _) => true
  end.

(** [value || d] *)
Definition orElse `{Runtime} (value : option (Json Num)) (d : Json Num)
  : Json Num :=
  match value with
  | Some v => if truthy value then v else d
  | None => d
  end.

(** A property whose value is [undefined] is left out by
    [JSON.stringify]. *)
Definition optionalField {Num : Type} (key : string) (value : option string)
  : list (string * Json Num) :=
  match value with
  | Some s => [(key, JsonStr s)]
  | None => []
  end.

(** The event of the API gateway: its [body] is a string or [null]. *)
Record Event : Type := mkEvent {
  body : option string;
}.

Record Response (Num : Type) : Type := mkResponse {
  statusCode : Json Num;
  headers : list (string * string);
  responseBody : string;
}.
Arguments mkResponse {Num} statusCode headers responseBody.
Arguments statusCode {Num} r.
Arguments headers {Num} r.
Arguments responseBody {Num} r.

Definition corsHeaders : list (string * string) :=
  [ ("Content-Type", "application/json");
    ("Access-Control-Allow-Origin", "*") ].

(** [event.body ? JSON.parse(event.body) : {}]: the empty string is falsy. *)
Definition inputOf `{Runtime} (event : Event) : string + Json Num :=
  match body event with
  | Some text =>
      if bool_decide (text = "") then inr (JsonObj []) else JSON_parse text
  | None => inr (JsonObj [])
  end.

Definition handler `{Runtime} (event : Event) : M (Response Num) :=
  tryCatch
    (input ← lift (inputOf event);
     result ← send (JSON_stringify input);
     match exec_status result with
     | SUCCEEDED =>
         output ← lift (JSON_parse (default "undefined" (exec_output result)));
         status ← getProperty output "status";
         mret (mkResponse (orElse status (JsonNum (number 200))) corsHeaders
                 (JSON_stringify output))
     | _ =>
         mret (mkResponse (JsonNum (number 500)) corsHeaders
                 (JSON_stringify
                    (JsonObj
                       ([ ("status", JsonNum (number 500));
                          ("message",
                           JsonStr "Step Function execution failed") ]
                        ++ optionalField "error" (exec_error result)
                        ++ optionalField "cause" (exec_cause result)))))
     end)
    (λ message,
       mret (mkResponse (JsonNum (number 500)) corsHeaders
               (JSON_stringify
                  (JsonObj
                     [ ("status", JsonNum (number 500));
                       ("message", JsonStr "Internal Server Error");
                       ("error", JsonStr message) ])))).

(** [output.status], for an output that is not [null]. *)
Definition statusOf {Num : Type} (output : Json Num) : option (Json Num) :=
  match output with
  | JsonObj fields => lookupField "status" fields
  | _ => None
  end.

(** A small runtime to run the handler on examples: integer numbers, a
    parser and a printer that know four texts, and a client that throws on
    the input [BAD], reports a failed execution on the input [OK], and
    otherwise reports a successful one, with the output [MAINTENANCE] for
    the input [MAINTENANCE] and [OK] for any other. *)
Definition exampleRuntime : Runtime := {|
  Num := Z;
  number := λ n, n;
  isZeroOrNaN := λ n, n =? 0;
  JSON_parse := λ text,
    if bool_decide (text = "{}") then inr (JsonObj [])
    else if bool_decide (text = "OK") then
      inr (JsonObj [("status", JsonNum 200); ("level", JsonNum 1)])
    else if bool_decide (text = "MAINTENANCE") then
      inr (JsonObj [("status", JsonNum 503)])
    else if bool_decide (text = "BAD") then
      inr (JsonObj [("status", JsonNum 0)])
    else inl "Unexpected token";
  JSON_stringify := λ value,
    match value with
    | JsonObj [] => "{}"
    | JsonObj ((_, JsonNum 200) :: _) => "OK"
    | JsonObj ((_, JsonNum 503) :: _) => "MAINTENANCE"
    | JsonObj ((_, JsonNum 0) :: _) => "BAD"
    | _ => "ERROR"
    end;
  nullPropertyMessage := "Cannot read properties of null";
  startSyncExecution := λ input,
    if bool_decide (input = "BAD") then inl "ServiceUnavailable"
    else if bool_decide (input = "OK") then
      inr (mkSyncExecution FAILED None (Some "States.TaskFailed") None)
    else if bool_decide (input = "MAINTENANCE") then
      inr (mkSyncExecution SUCCEEDED (Some "MAINTENANCE") None None)
    else inr (mkSyncExecution SUCCEEDED (Some "OK") None None);
|}.

End Api.

(** * Properties *)

#[local] Arguments js_or : simpl never.

Ltac zcases :=
  repeat match goal with
    | |- context [?a <=? ?b] => destruct (Z.leb_spec a b)
    | |- context [?a <? ?b] => destruct (Z.ltb_spec a b)
    | |- context [?a =? ?b] => destruct (Z.eqb_spec a b)
    end; simpl in *.

Ltac run_lambda :=
  unfold tableAfter, outcomeOf, mbind, Lambda_bind, mret, Lambda_ret,
    try_catch, throw, sendUpdate, sendGet, updateItem; simpl.

Lemma js_or_zero x : js_or x 0 = default 0 x.
Proof. by destruct x as [[]|]. Qed.

(** ** Closed forms of the three transitions *)

Lemma handleFailure_eq now tbl :
  handleFailure now tbl =
    (Resolved
       (mkResult "FAILURE" (Some (default 0 (stored tbl ≫= errorCount) + 1))
          (failureLevel (default 0 (stored tbl ≫= errorCount) + 1)
             (tier tbl))
          None
          (negb (failureLevel (default 0 (stored tbl ≫= errorCount) + 1)
                   (tier tbl) =? tier tbl))
          (Some now) None),
     <[PK := afterFailure now (stored tbl)]> tbl).
Proof.
  unfold handleFailure, afterFailure, tier, tierOf, stored, failureLevel.
  run_lambda.
  destruct (tbl !! PK) as [[e l r u]|]; simpl.
  - set (e' := default 0 e + 1). set (t := js_or l 1).
    unfold THRESHOLDS.DEGRADE_TO_L3, THRESHOLDS.DEGRADE_TO_L2.
    zcases; try lia;
      rewrite ?lookup_insert_eq, ?insert_insert_eq; reflexivity.
  - reflexivity.
Qed.

Lemma handleSuccess_eq event now tbl :
  handleSuccess event now tbl =
    (Resolved (successResult (strict_true (hadErrorFlag event)) now (stored tbl)),
     <[PK := afterSuccess (strict_true (hadErrorFlag event)) now (stored tbl)]>
       tbl).
Proof.
  unfold handleSuccess, successResult, afterSuccess, successFields, stored,
    errorsOf, tierOf, pointsOf.
  run_lambda.
  destruct (tbl !! PK) as [[e l r u]|]; simpl; [|reflexivity].
  set (e0 := js_or e 0). set (t := js_or l 1). set (p := js_or r 0).
  unfold THRESHOLDS.DEGRADE_TO_L3, THRESHOLDS.RECOVERY_POINTS.
  destruct (strict_true (hadErrorFlag event)); zcases; try lia; reflexivity.
Qed.

Lemma handleReset_eq now tbl :
  handleReset now tbl =
    (Resolved (mkResult "RESET" (Some 0) 1 (Some 0) true (Some now)
                 (Some "System reset to Full Capacity")),
     <[PK := afterReset now]> tbl).
Proof. reflexivity. Qed.

(** The entry point dispatches on the action and adds nothing to what the
    chosen transition does. *)
Lemma handler_FAILURE now tbl : handler FAILURE now tbl = handleFailure now tbl.
Proof. unfold handler, try_catch. simpl. by rewrite handleFailure_eq. Qed.

Lemma handler_SUCCESS flag now tbl :
  handler (SUCCESS flag) now tbl = handleSuccess (SUCCESS flag) now tbl.
Proof. unfold handler, try_catch. simpl. by rewrite handleSuccess_eq. Qed.

Lemma handler_RESET now tbl : handler RESET now tbl = handleReset now tbl.
Proof. reflexivity. Qed.

(** ** The state machine on the three numbers the mutator reads *)

Lemma js_or_Some_zero v : js_or (Some v) 0 = v.
Proof. by destruct v. Qed.

Lemma js_or_Some_one v : v ≠ 0 → js_or (Some v) 1 = v.
Proof. by destruct v. Qed.

Lemma stored_insert (it : Item) (tbl : gmap string Item) :
  stored (<[PK := it]> tbl) = Some it.
Proof. apply lookup_insert_eq. Qed.

Lemma errorsOf_afterFailure now o :
  errorsOf (Some (afterFailure now o)) = errorsOf o + 1.
Proof.
  unfold errorsOf, afterFailure. simpl.
  by rewrite js_or_Some_zero, js_or_zero.
Qed.

Lemma pointsOf_afterFailure now o : pointsOf (Some (afterFailure now o)) = 0.
Proof. reflexivity. Qed.

Lemma tierOf_afterFailure now o :
  tierOf (Some (afterFailure now o)) = failureLevel (errorsOf o + 1) (tierOf o).
Proof.
  unfold errorsOf. rewrite js_or_zero.
  unfold afterFailure, failureLevel at 1. simpl.
  set (e := default 0 (o ≫= errorCount) + 1). set (t := tierOf o).
  unfold failureLevel, THRESHOLDS.DEGRADE_TO_L3, THRESHOLDS.DEGRADE_TO_L2.
  unfold tierOf at 1. simpl.
  zcases; try lia; try reflexivity.
Qed.

Lemma view_afterSuccess flag now o :
  (errorsOf (Some (afterSuccess flag now o)),
   tierOf (Some (afterSuccess flag now o)),
   pointsOf (Some (afterSuccess flag now o)))
  = successFields flag (errorsOf o) (tierOf o) (pointsOf o).
Proof.
  destruct o as [it|]; [|reflexivity].
  unfold afterSuccess.
  destruct (successFields _ _ _ _) as [[e t] p] eqn:Hf.
  unfold errorsOf, tierOf, pointsOf. simpl.
  rewrite !js_or_Some_zero. f_equal. f_equal.
  apply js_or_Some_one.
  revert Hf. unfold successFields, tierOf.
  assert (js_or (Some it ≫= currentLevel) 1 ≠ 0)
    by (simpl; destruct (currentLevel it) as [[]|]; done).
  set (t0 := js_or _ 1) in *.
  unfold THRESHOLDS.DEGRADE_TO_L3.
  destruct flag; zcases; intros [= <- <- <-]; lia.
Qed.

Lemma view_failure now tbl :
  view (tableAfter (handleFailure now) tbl) =
    (errors tbl + 1, failureLevel (errors tbl + 1) (tier tbl), 0).
Proof.
  unfold tableAfter. rewrite handleFailure_eq. simpl.
  unfold view, errors, tier, points. rewrite stored_insert.
  by rewrite errorsOf_afterFailure, tierOf_afterFailure, pointsOf_afterFailure.
Qed.

Lemma view_success event now tbl :
  view (tableAfter (handleSuccess event now) tbl) =
    successFields (strict_true (hadErrorFlag event))
      (errors tbl) (tier tbl) (points tbl).
Proof.
  unfold tableAfter. rewrite handleSuccess_eq. simpl.
  unfold view, errors, tier, points. rewrite stored_insert.
  apply view_afterSuccess.
Qed.

Lemma view_reset now tbl : view (tableAfter (handleReset now) tbl) = (0, 1, 0).
Proof.
  unfold tableAfter. rewrite handleReset_eq. simpl.
  unfold view, errors, tier, points. by rewrite stored_insert.
Qed.

Lemma strict_str_true a lit : strict_str a lit = true ↔ a = JStr lit.
Proof.
  destruct a; simpl; try (split; [discriminate|discriminate]).
  rewrite bool_decide_eq_true. split; [by intros ->|by intros [= ->]].
Qed.

Lemma knownAction_false a :
  knownAction a = false ↔
  a ≠ JStr "FAILURE" ∧ a ≠ JStr "SUCCESS" ∧ a ≠ JStr "RESET".
Proof.
  unfold knownAction. rewrite !orb_false_iff.
  rewrite <- !not_true_iff_false, !strict_str_true. tauto.
Qed.

(** The four ways an invocation of the mutator can go. *)
Lemma handler_cases event now tbl :
  (action event = JStr "FAILURE"
   ∧ handler event now tbl = handleFailure now tbl)
  ∨ (action event = JStr "SUCCESS"
     ∧ handler event now tbl = handleSuccess event now tbl)
  ∨ (action event = JStr "RESET"
     ∧ handler event now tbl = handleReset now tbl)
  ∨ (knownAction (action event) = false
     ∧ handler event now tbl = (Rejected (UnknownAction (action event)), tbl)).
Proof.
  unfold handler, try_catch, knownAction.
  destruct (strict_str (action event) "FAILURE") eqn:HF.
  { left. split; [by apply strict_str_true|]. by rewrite handleFailure_eq. }
  destruct (strict_str (action event) "SUCCESS") eqn:HS.
  { right; left. split; [by apply strict_str_true|]. by rewrite handleSuccess_eq. }
  destruct (strict_str (action event) "RESET") eqn:HR.
  { right; right; left. split; [by apply strict_str_true|]. done. }
  right; right; right. done.
Qed.

(** ** The invariant of sequential runs *)

Lemma sound_default tbl : isDefault (stored tbl) = true → sound (view tbl).
Proof.
  unfold view, errors, tier, points, isDefault, sound.
  destruct (stored tbl) as [[e l r u]|]; simpl.
  - rewrite bool_decide_eq_true. intros (-> & -> & ->).
    unfold errorsOf, tierOf, pointsOf; simpl. vm_compute. intuition congruence.
  - intros _. vm_compute. intuition congruence.
Qed.

Lemma sound_failure e t p :
  sound (e, t, p) → sound (e + 1, failureLevel (e + 1) t, 0).
Proof.
  unfold sound, failureLevel, THRESHOLDS.RECOVERY_POINTS,
    THRESHOLDS.DEGRADE_TO_L2, THRESHOLDS.DEGRADE_TO_L3.
  intros (? & ? & ? & ? & ?). zcases; lia.
Qed.

Lemma sound_success flag e t p :
  sound (e, t, p) → sound (successFields flag e t p).
Proof.
  unfold sound, successFields, THRESHOLDS.RECOVERY_POINTS,
    THRESHOLDS.DEGRADE_TO_L2, THRESHOLDS.DEGRADE_TO_L3.
  intros (? & ? & ? & ? & ?). destruct flag; zcases; lia.
Qed.

Lemma sound_handler event now tbl :
  sound (view tbl) → sound (view (tableAfter (handler event now) tbl)).
Proof.
  intros Hs. unfold tableAfter at 1.
  destruct (handler_cases event now tbl)
    as [[_ ->]|[[_ ->]|[[_ ->]|[_ ->]]]].
  - fold (tableAfter (handleFailure now) tbl). rewrite view_failure.
    by apply (sound_failure _ _ (points tbl)).
  - fold (tableAfter (handleSuccess event now) tbl). rewrite view_success.
    by apply sound_success.
  - fold (tableAfter (handleReset now) tbl). rewrite view_reset.
    vm_compute. intuition congruence.
  - done.
Qed.

Lemma run_snoc calls call tbl :
  run (calls ++ [call]) tbl
  = tableAfter (handler call.1 call.2) (run calls tbl).
Proof. unfold run. by rewrite foldl_app. Qed.

Lemma sound_run calls tbl : sound (view tbl) → sound (view (run calls tbl)).
Proof.
  revert tbl. induction calls as [|[event now] calls IH]; intros tbl Hs.
  - done.
  - simpl. apply IH. by apply sound_handler.
Qed.

(** ** Single-step transitions *)

(** C1. In every state reached from the default record by a sequential run
    of the mutator, one [handleFailure] leaves the tier where it is or moves
    it one step up, and one [handleSuccess] leaves it where it is or moves it
    one step down, the only rise being the step from 2 to 3 of a protected
    success. No call skips a tier. *)
Theorem single_step_transitions
    (init : gmap string Item) (calls : list (Event * string))
    (event : Event) (now : string) :
  isDefault (stored init) = true →
  let tbl := run calls init in
  let failed := tableAfter (handleFailure now) tbl in
  let succeeded := tableAfter (handleSuccess event now) tbl in
  1 ≤ tier tbl ≤ 3
  ∧ (tier failed = tier tbl ∨ tier failed = tier tbl + 1)
  ∧ (tier succeeded = tier tbl
     ∨ tier succeeded = tier tbl - 1
     ∨ (strict_true (hadErrorFlag event) = true
        ∧ tier tbl = 2 ∧ tier succeeded = 3)).
Proof.
  intros Hd tbl failed succeeded.
  pose proof (sound_run calls init (sound_default _ Hd)) as Hs.
  fold tbl in Hs.
  pose proof (view_failure now tbl) as Hf.
  pose proof (view_success event now tbl) as Hok.
  fold failed in Hf. fold succeeded in Hok.
  unfold view in *. unfold sound in Hs.
  destruct Hs as (Ht & He & Hp & H1 & H2).
  injection Hf as _ Hf _. rewrite Hf. clear Hf.
  split; [done|]. split.
  - unfold failureLevel, THRESHOLDS.DEGRADE_TO_L2, THRESHOLDS.DEGRADE_TO_L3 in *.
    zcases; lia.
  - revert Hok. unfold successFields, THRESHOLDS.RECOVERY_POINTS,
      THRESHOLDS.DEGRADE_TO_L2, THRESHOLDS.DEGRADE_TO_L3 in *.
    destruct (strict_true (hadErrorFlag event));
      zcases; intros [= _ -> _]; lia.
Qed.

Lemma single_step_transitions_witness :
  let init : gmap string Item := ∅ in
  let tbl := run (times FAILURE ["t1"; "t2"; "t3"; "t4"; "t5"]) init in
  let failed := tableAfter (handleFailure "t6") tbl in
  let succeeded := tableAfter (handleSuccess (SUCCESS true) "t6") tbl in
  isDefault (stored init) = true
  ∧ 1 ≤ tier tbl ≤ 3
  ∧ (tier failed = tier tbl ∨ tier failed = tier tbl + 1)
  ∧ (tier succeeded = tier tbl
     ∨ tier succeeded = tier tbl - 1
     ∨ (strict_true (hadErrorFlag (SUCCESS true)) = true
        ∧ tier tbl = 2 ∧ tier succeeded = 3)).
Proof.
  split; [reflexivity|].
  apply (single_step_transitions ∅
           (times FAILURE ["t1"; "t2"; "t3"; "t4"; "t5"])
           (SUCCESS true) "t6").
  reflexivity.
Defined.

(** ** Runs, seen through the stored record and through the view *)

Lemma stored_handler event now tbl :
  stored (tableAfter (handler event now) tbl)
  = stepStored event now (stored tbl).
Proof.
  unfold tableAfter, stepStored.
  destruct (handler_cases event now tbl)
    as [[Ha ->]|[[Ha ->]|[[Ha ->]|[Ha ->]]]].
  - rewrite Ha, handleFailure_eq. simpl. apply stored_insert.
  - rewrite Ha, handleSuccess_eq. simpl. apply stored_insert.
  - rewrite Ha, handleReset_eq. simpl. apply stored_insert.
  - unfold knownAction in Ha. apply orb_false_iff in Ha as [Ha ->].
    apply orb_false_iff in Ha as [-> ->]. done.
Qed.

Lemma view_handler event now tbl :
  view (tableAfter (handler event now) tbl) = stepView event (view tbl).
Proof.
  unfold tableAfter at 1, stepView, view at 2.
  destruct (handler_cases event now tbl)
    as [[Ha ->]|[[Ha ->]|[[Ha ->]|[Ha ->]]]].
  - rewrite Ha. simpl. apply view_failure.
  - rewrite Ha. simpl. apply view_success.
  - rewrite Ha. simpl. apply view_reset.
  - unfold knownAction in Ha. apply orb_false_iff in Ha as [Ha ->].
    apply orb_false_iff in Ha as [-> ->]. done.
Qed.

Lemma stored_run calls tbl :
  stored (run calls tbl)
  = foldl (λ o call, stepStored call.1 call.2 o) (stored tbl) calls.
Proof.
  revert tbl. induction calls as [|[event now] calls IH]; intros tbl; [done|].
  simpl. by rewrite IH, stored_handler.
Qed.

Lemma view_run calls tbl :
  view (run calls tbl) = foldl (λ v call, stepView call.1 v) (view tbl) calls.
Proof.
  revert tbl. induction calls as [|[event now] calls IH]; intros tbl; [done|].
  simpl. by rewrite IH, view_handler.
Qed.

(** ** Genuine successes: recovery and promotion *)

(** C2. At tier 2 or 3 a success whose request did not carry the error flag
    adds one recovery point. If the count then reaches [RECOVERY_POINTS] the
    tier goes up by exactly one step and the record is written with
    [errorCount] and [recoveryPoints] both 0; otherwise the tier and the
    error count stay as they were. *)
Theorem genuine_success_step
    (tbl : gmap string Item) (event : Event) (now : string) :
  strict_true (hadErrorFlag event) = false →
  tier tbl = 2 ∨ tier tbl = 3 →
  let tbl' := tableAfter (handleSuccess event now) tbl in
  if THRESHOLDS.RECOVERY_POINTS <=? points tbl + 1 then
    stored tbl' = Some (mkItem (Some 0) (Some (tier tbl - 1)) (Some 0) (Some now))
    ∧ outcomeOf (handleSuccess event now) tbl
      = Resolved (mkResult "SUCCESS" (Some 0) (tier tbl - 1) (Some 0) true
                    (Some now) None)
  else
    stored tbl' = Some (mkItem (Some (errors tbl)) (Some (tier tbl))
                          (Some (points tbl + 1)) (Some now))
    ∧ outcomeOf (handleSuccess event now) tbl
      = Resolved (mkResult "SUCCESS" (Some (errors tbl)) (tier tbl)
                    (Some (points tbl + 1)) false (Some now) None).
Proof.
  intros Hflag Ht tbl'. subst tbl'.
  unfold tableAfter, outcomeOf. rewrite handleSuccess_eq, Hflag. simpl.
  rewrite stored_insert.
  unfold tier, errors, points in *.
  destruct (stored tbl) as [it|] eqn:Hst;
    [|exfalso; revert Ht; vm_compute; intuition congruence].
  unfold afterSuccess, successResult, successFields.
  set (t := tierOf (Some it)) in *. set (e := errorsOf (Some it)).
  set (p := pointsOf (Some it)).
  unfold THRESHOLDS.RECOVERY_POINTS.
  destruct Ht as [Ht|Ht]; rewrite Ht; simpl; zcases; done.
Qed.

Lemma genuine_success_step_witness :
  let tbl : gmap string Item :=
    {[ PK := mkItem (Some 7) (Some 3) (Some 9) (Some "t0") ]} in
  let event := SUCCESS false in
  strict_true (hadErrorFlag event) = false
  ∧ (tier tbl = 2 ∨ tier tbl = 3)
  ∧ stored (tableAfter (handleSuccess event "t1") tbl)
    = Some (mkItem (Some 0) (Some 2) (Some 0) (Some "t1"))
  ∧ outcomeOf (handleSuccess event "t1") tbl
    = Resolved (mkResult "SUCCESS" (Some 0) 2 (Some 0) true (Some "t1") None).
Proof.
  split; [reflexivity|]. split; [right; reflexivity|].
  exact (genuine_success_step
           {[ PK := mkItem (Some 7) (Some 3) (Some 9) (Some "t0") ]}
           (SUCCESS false) "t1" eq_refl (or_intror eq_refl)).
Defined.

(** ** Interrupted recovery streaks *)

Lemma points_after_failure now tbl :
  points (tableAfter (handler FAILURE now) tbl) = 0.
Proof.
  pose proof (view_handler FAILURE now tbl) as H.
  unfold view at 1 in H. simpl in H. by injection H.
Qed.

Lemma points_after_protected now tbl :
  points (tableAfter (handler (SUCCESS true) now) tbl) = 0.
Proof.
  pose proof (view_handler (SUCCESS true) now tbl) as H.
  unfold view in H. simpl in H. revert H. unfold successFields.
  zcases; by intros [= _ _ ->].
Qed.

(** A streak that cannot reach the threshold leaves the tier alone. *)
Lemma short_streak_keeps_tier clock tbl :
  0 ≤ points tbl →
  points tbl + Z.of_nat (length clock) < THRESHOLDS.RECOVERY_POINTS →
  tier (run (times (SUCCESS false) clock) tbl) = tier tbl.
Proof.
  revert tbl. induction clock as [|now clock IH]; intros tbl Hp Hlen; [done|].
  simpl. simpl in Hlen.
  pose proof (view_handler (SUCCESS false) now tbl) as Hv.
  unfold view in Hv. simpl in Hv. revert Hv.
  unfold successFields, THRESHOLDS.RECOVERY_POINTS in *.
  zcases; try lia; intros [= _ Ht Hq];
    (rewrite IH; [done | lia | lia]).
Qed.

(** C3. From a state at tier 2 or 3, nine genuine successes followed by a
    failure, or by a protected success, leave [recoveryPoints] at 0, and the
    genuine success that comes next, the tenth, does not promote; nor does
    any run of up to nine genuine successes after the interruption. *)
Theorem recovery_reset_on_interruption
    (tbl : gmap string Item) (clock : list string) (interruption : Event)
    (ti tn : string) :
  tier tbl = 2 ∨ tier tbl = 3 →
  length clock = 9%nat →
  interruption = FAILURE ∨ interruption = SUCCESS true →
  let streak := run (times (SUCCESS false) clock) tbl in
  let broken := tableAfter (handler interruption ti) streak in
  let next := tableAfter (handler (SUCCESS false) tn) broken in
  points broken = 0
  ∧ tier next = tier broken
  ∧ points next ≤ 1
  ∧ ∀ more : list string, (length more ≤ 9)%nat →
      tier (run (times (SUCCESS false) more) broken) = tier broken.
Proof.
  intros _ _ Hi streak broken next.
  assert (points broken = 0) as Hp.
  { subst broken. destruct Hi as [-> | ->];
      [apply points_after_failure | apply points_after_protected]. }
  assert (∀ more : list string, (length more ≤ 9)%nat →
            tier (run (times (SUCCESS false) more) broken) = tier broken)
    as Hmore.
  { intros more Hlen. apply short_streak_keeps_tier;
      unfold THRESHOLDS.RECOVERY_POINTS; lia. }
  split; [done|]. split; [exact (Hmore [tn] ltac:(simpl; lia))|].
  split; [|done].
  pose proof (view_handler (SUCCESS false) tn broken) as Hv.
  fold next in Hv. unfold view in Hv. rewrite Hp in Hv. simpl in Hv.
  revert Hv. unfold successFields, THRESHOLDS.RECOVERY_POINTS.
  zcases; intros [= _ _ ->]; lia.
Qed.

Lemma recovery_reset_on_interruption_witness :
  let tbl : gmap string Item :=
    {[ PK := mkItem (Some 5) (Some 2) (Some 0) (Some "t0") ]} in
  let clock := ["t1"; "t2"; "t3"; "t4"; "t5"; "t6"; "t7"; "t8"; "t9"] in
  let streak := run (times (SUCCESS false) clock) tbl in
  let broken := tableAfter (handler FAILURE "t10") streak in
  let next := tableAfter (handler (SUCCESS false) "t11") broken in
  (tier tbl = 2 ∨ tier tbl = 3)
  ∧ length clock = 9%nat
  ∧ (FAILURE = FAILURE ∨ FAILURE = SUCCESS true)
  ∧ points streak = 9
  ∧ points broken = 0
  ∧ tier next = tier broken
  ∧ points next ≤ 1
  ∧ ∀ more : list string, (length more ≤ 9)%nat →
      tier (run (times (SUCCESS false) more) broken) = tier broken.
Proof.
  split; [left; reflexivity|]. split; [reflexivity|].
  split; [left; reflexivity|]. split; [reflexivity|].
  exact (recovery_reset_on_interruption
           {[ PK := mkItem (Some 5) (Some 2) (Some 0) (Some "t0") ]}
           ["t1"; "t2"; "t3"; "t4"; "t5"; "t6"; "t7"; "t8"; "t9"]
           FAILURE "t10" "t11"
           (or_introl eq_refl) eq_refl (or_introl eq_refl)).
Defined.

(** The bound of nine is tight: a tenth unbroken genuine success promotes. *)
Lemma full_streak_promotes (tbl : gmap string Item) (clock : list string) :
  tier tbl = 2 ∨ tier tbl = 3 →
  points tbl = 0 →
  length clock = 10%nat →
  view (run (times (SUCCESS false) clock) tbl) = (0, tier tbl - 1, 0).
Proof.
  intros Ht Hp Hlen.
  do 11 (destruct clock as [|? clock]; try discriminate Hlen).
  rewrite view_run. unfold view. rewrite Hp.
  destruct Ht as [-> | ->]; reflexivity.
Qed.

(** ** Protected successes *)

Lemma times_snoc event clock now :
  times event (clock ++ [now])%list
  = (times event clock ++ [(event, now)])%list.
Proof. unfold times. by rewrite fmap_app. Qed.

Lemma protected_run_points (clock : list string) (tbl : gmap string Item) :
  clock ≠ [] → points (run (times (SUCCESS true) clock) tbl) = 0.
Proof.
  destruct clock as [|now clock _] using rev_ind; [done|]. intros _.
  rewrite times_snoc, run_snoc. apply points_after_protected.
Qed.

(** C4. At tier 2 or 3 a success whose request carried the error flag adds
    one to [errorCount] and writes [recoveryPoints] 0; the tier becomes 3
    when the new error count is at least [DEGRADE_TO_L3] and the tier was
    below 3, and is kept otherwise. From tier 2 with error count 5, ten such
    successes in a row end at tier 3 with error count 15, and
    [recoveryPoints] is 0 after each of them. *)
Theorem protected_success_step
    (tbl : gmap string Item) (event : Event) (now : string)
    (start : gmap string Item) (clock : list string) :
  (strict_true (hadErrorFlag event) = true →
   tier tbl = 2 ∨ tier tbl = 3 →
   let level :=
     if (THRESHOLDS.DEGRADE_TO_L3 <=? errors tbl + 1) && (tier tbl <? 3)
     then 3 else tier tbl in
   stored (tableAfter (handleSuccess event now) tbl)
   = Some (mkItem (Some (errors tbl + 1)) (Some level) (Some 0) (Some now))
   ∧ outcomeOf (handleSuccess event now) tbl
     = Resolved (mkResult "SUCCESS" (Some (errors tbl + 1)) level (Some 0)
                   (negb (level =? tier tbl)) (Some now) None))
  ∧ (tier start = 2 → errors start = 5 → length clock = 10%nat →
     view (run (times (SUCCESS true) clock) start) = (15, 3, 0)
     ∧ ∀ k : nat, (0 < k ≤ 10)%nat →
         points (run (times (SUCCESS true) (take k clock)) start) = 0).
Proof.
  split.
  - intros Hflag Ht level. subst level.
    unfold tableAfter, outcomeOf. rewrite handleSuccess_eq, Hflag. simpl.
    rewrite stored_insert.
    unfold tier, errors, points in *.
    destruct (stored tbl) as [it|] eqn:Hst;
      [|exfalso; revert Ht; vm_compute; intuition congruence].
    unfold afterSuccess, successResult, successFields.
    set (t := tierOf (Some it)) in *. set (e := errorsOf (Some it)).
    unfold THRESHOLDS.DEGRADE_TO_L3.
    destruct Ht as [Ht|Ht]; rewrite Ht; simpl; zcases; done.
  - intros Ht He Hlen. split.
    + do 11 (destruct clock as [|? clock]; try discriminate Hlen).
      rewrite view_run. unfold view. rewrite Ht, He. reflexivity.
    + intros k Hk. apply protected_run_points.
      intros Hnil. apply (f_equal length) in Hnil.
      rewrite length_take in Hnil. simpl in Hnil. lia.
Qed.

Lemma protected_success_step_witness :
  let tbl : gmap string Item :=
    {[ PK := mkItem (Some 9) (Some 2) (Some 4) (Some "t0") ]} in
  let start : gmap string Item :=
    {[ PK := mkItem (Some 5) (Some 2) (Some 0) (Some "t0") ]} in
  let clock :=
    ["t1"; "t2"; "t3"; "t4"; "t5"; "t6"; "t7"; "t8"; "t9"; "t10"] in
  (strict_true (hadErrorFlag (SUCCESS true)) = true
   ∧ (tier tbl = 2 ∨ tier tbl = 3)
   ∧ stored (tableAfter (handleSuccess (SUCCESS true) "t1") tbl)
     = Some (mkItem (Some 10) (Some 3) (Some 0) (Some "t1"))
   ∧ outcomeOf (handleSuccess (SUCCESS true) "t1") tbl
     = Resolved (mkResult "SUCCESS" (Some 10) 3 (Some 0) true
                   (Some "t1") None))
  ∧ (tier start = 2 ∧ errors start = 5 ∧ length clock = 10%nat
     ∧ view (run (times (SUCCESS true) clock) start) = (15, 3, 0)
     ∧ ∀ k : nat, (0 < k ≤ 10)%nat →
         points (run (times (SUCCESS true) (take k clock)) start) = 0).
Proof.
  pose proof (protected_success_step
                {[ PK := mkItem (Some 9) (Some 2) (Some 4) (Some "t0") ]}
                (SUCCESS true) "t1"
                {[ PK := mkItem (Some 5) (Some 2) (Some 0) (Some "t0") ]}
                ["t1"; "t2"; "t3"; "t4"; "t5"; "t6"; "t7"; "t8"; "t9"; "t10"])
    as [Hstep Hscenario].
  split.
  - split; [reflexivity|]. split; [left; reflexivity|].
    exact (Hstep eq_refl (or_introl eq_refl)).
  - split; [reflexivity|]. split; [reflexivity|]. split; [reflexivity|].
    exact (Hscenario eq_refl eq_refl eq_refl).
Defined.

(** ** Failures and degradation *)

Lemma view_default tbl : isDefault (stored tbl) = true → view tbl = (0, 1, 0).
Proof.
  unfold view, errors, tier, points, isDefault.
  destruct (stored tbl) as [[e l r u]|]; simpl; [|done].
  rewrite bool_decide_eq_true. by intros (-> & -> & ->).
Qed.

(** C5. From the default record five failures in a row give tier 2 with
    error count 5 and recovery points 0, and fewer than five leave tier 1.
    Every [handleFailure] adds one to the error count, writes recovery
    points 0, and chooses the tier from the incremented error count and the
    tier it found. In a sequential run from the default record the step from
    tier 1 to tier 2 is taken exactly when the count becomes 5, and the step
    from tier 2 to tier 3 exactly when it becomes 10. *)
Theorem failure_degradation
    (init : gmap string Item) (clock : list string)
    (calls : list (Event * string)) (tbl : gmap string Item) (now : string) :
  (isDefault (stored init) = true → length clock = 5%nat →
   view (run (times FAILURE clock) init) = (5, 2, 0)
   ∧ ∀ k : nat, (k < 5)%nat →
       view (run (times FAILURE (take k clock)) init) = (Z.of_nat k, 1, 0))
  ∧ view (tableAfter (handleFailure now) tbl)
    = (errors tbl + 1,
       (if (THRESHOLDS.DEGRADE_TO_L3 <=? errors tbl + 1) && (tier tbl <? 3)
        then 3
        else if (THRESHOLDS.DEGRADE_TO_L2 <=? errors tbl + 1) && (tier tbl <? 2)
        then 2
        else tier tbl),
       0)
  ∧ (isDefault (stored init) = true →
     let reached := run calls init in
     let failed := tableAfter (handleFailure now) reached in
     (tier reached = 1 → tier failed = 2 ↔ errors reached + 1 = 5)
     ∧ (tier reached = 2 → tier failed = 3 ↔ errors reached + 1 = 10)).
Proof.
  split; [|split].
  - intros Hd Hlen. apply view_default in Hd.
    do 6 (destruct clock as [|? clock]; try discriminate Hlen).
    split.
    + by rewrite view_run, Hd.
    + intros k Hk. rewrite view_run, Hd.
      do 5 (destruct k as [|k]; [reflexivity|]). lia.
  - apply view_failure.
  - intros Hd reached failed.
    pose proof (sound_run calls init (sound_default _ Hd)) as Hs.
    fold reached in Hs.
    pose proof (view_failure now reached) as Hf. fold failed in Hf.
    unfold view, sound in *. destruct Hs as (Ht & He & Hp & H1 & H2).
    injection Hf as _ Hf _. rewrite Hf.
    unfold failureLevel, THRESHOLDS.DEGRADE_TO_L2, THRESHOLDS.DEGRADE_TO_L3 in *.
    split; intros Hr; rewrite Hr in *; zcases; lia.
Qed.

Lemma failure_degradation_witness :
  let init : gmap string Item := ∅ in
  let clock := ["t1"; "t2"; "t3"; "t4"; "t5"] in
  let calls := times FAILURE ["a"; "b"; "c"; "d"] in
  let reached := run calls init in
  let failed := tableAfter (handleFailure "e") reached in
  isDefault (stored init) = true
  ∧ length clock = 5%nat
  ∧ view (run (times FAILURE clock) init) = (5, 2, 0)
  ∧ (∀ k : nat, (k < 5)%nat →
       view (run (times FAILURE (take k clock)) init) = (Z.of_nat k, 1, 0))
  ∧ tier reached = 1 ∧ errors reached + 1 = 5 ∧ tier failed = 2.
Proof.
  pose proof (failure_degradation ∅ ["t1"; "t2"; "t3"; "t4"; "t5"]
                (times FAILURE ["a"; "b"; "c"; "d"]) ∅ "e")
    as (Hscenario & _ & Hreached).
  destruct (Hscenario eq_refl eq_refl) as [Hfive Hfewer].
  destruct (Hreached eq_refl) as [Hone _].
  split; [reflexivity|]. split; [reflexivity|].
  split; [exact Hfive|]. split; [exact Hfewer|].
  split; [reflexivity|]. split; [reflexivity|].
  apply (Hone eq_refl). reflexivity.
Defined.

(** ** Reset *)

(** C6. [handleReset] writes tier 1 and both counters 0 whatever the table
    held, a second reset gives the table that a single one gives, and every
    reset reports [levelChanged: true] with the same tier and counters. *)
Theorem reset_idempotent
    (tbl : gmap string Item) (now now' : string) :
  let once := tableAfter (handleReset now) tbl in
  let twice := tableAfter (handleReset now') once in
  stored once = Some (mkItem (Some 0) (Some 1) (Some 0) (Some now))
  ∧ view once = (0, 1, 0)
  ∧ view twice = view once
  ∧ twice = tableAfter (handleReset now') tbl
  ∧ outcomeOf (handleReset now) tbl
    = Resolved (mkResult "RESET" (Some 0) 1 (Some 0) true (Some now)
                  (Some "System reset to Full Capacity"))
  ∧ outcomeOf (handleReset now') once
    = Resolved (mkResult "RESET" (Some 0) 1 (Some 0) true (Some now')
                  (Some "System reset to Full Capacity"))
  ∧ handler RESET now tbl = handleReset now tbl.
Proof.
  intros once twice. subst once twice.
  unfold tableAfter, outcomeOf. rewrite !handleReset_eq. simpl.
  split; [apply stored_insert|].
  split; [by unfold view, errors, tier, points; rewrite stored_insert|].
  split; [by unfold view, errors, tier, points; rewrite !stored_insert|].
  split; [apply insert_insert_eq|]. done.
Qed.

(** ** The state reader *)

Lemma getState_eq tbl :
  getState tbl =
    (Resolved
       (match stored tbl with
        | None => mkSystemState (Some 1) (Some 0) None
        | Some item =>
            mkSystemState (currentLevel item) (errorCount item)
              (lastUpdated item)
        end),
     tbl).
Proof.
  unfold getState, stored. run_lambda. by destruct (tbl !! PK).
Qed.

(** C7, as the code has it. For a stored record the read returns the
    record's [currentLevel], [errorCount] and [lastUpdated], each as stored;
    the recovery count is not part of what it returns, so two records that
    differ only in [recoveryPoints] read the same. *)
Theorem read_returns_level_and_errors
    (tbl : gmap string Item) (item : Item) (points' : option Z) :
  stored tbl = Some item →
  outcomeOf getState tbl
  = Resolved (mkSystemState (currentLevel item) (errorCount item)
                (lastUpdated item))
  ∧ outcomeOf getState
      (<[PK := mkItem (errorCount item) (currentLevel item) points'
                 (lastUpdated item)]> tbl)
    = outcomeOf getState tbl.
Proof.
  intros Hst. unfold outcomeOf. rewrite !getState_eq. simpl.
  by rewrite stored_insert, Hst.
Qed.

Lemma read_returns_level_and_errors_witness :
  let item := mkItem (Some 5) (Some 2) (Some 3) (Some "t0") in
  let tbl : gmap string Item := {[ PK := item ]} in
  stored tbl = Some item
  ∧ outcomeOf getState tbl
    = Resolved (mkSystemState (Some 2) (Some 5) (Some "t0"))
  ∧ outcomeOf getState
      (<[PK := mkItem (Some 5) (Some 2) (Some 7) (Some "t0")]> tbl)
    = outcomeOf getState tbl.
Proof.
  split; [reflexivity|].
  exact (read_returns_level_and_errors
           {[ PK := mkItem (Some 5) (Some 2) (Some 3) (Some "t0") ]}
           (mkItem (Some 5) (Some 2) (Some 3) (Some "t0")) (Some 7) eq_refl).
Defined.

(** C7, as stated, fails: the records with recovery counts 3 and 7 below
    read the same, so no reading of the result yields the recovery count of
    the stored record. *)
Lemma read_omits_recovery_count :
  let three := mkItem (Some 5) (Some 2) (Some 3) (Some "t0") in
  let seven := mkItem (Some 5) (Some 2) (Some 7) (Some "t0") in
  ¬ ∃ recoveryOf : SystemState → option Z,
      ∀ item : Item, item = three ∨ item = seven →
        ∀ result : SystemState,
          outcomeOf getState ({[ PK := item ]} : gmap string Item)
          = Resolved result →
          recoveryOf result = recoveryPoints item.
Proof.
  intros three seven [recoveryOf H].
  pose proof (H three (or_introl eq_refl) _ eq_refl) as H3.
  pose proof (H seven (or_intror eq_refl) _ eq_refl) as H7.
  simpl in H3, H7. congruence.
Qed.

(** C8. With no stored record the read returns tier 1 and error count 0,
    and the table it leaves is the table it found, still without a record;
    the same holds of the table after any read. *)
Theorem read_is_side_effect_free (tbl tbl' : gmap string Item) :
  tableAfter getState tbl' = tbl'
  ∧ (stored tbl = None →
     outcomeOf getState tbl = Resolved (mkSystemState (Some 1) (Some 0) None)
     ∧ tableAfter getState tbl = tbl
     ∧ stored (tableAfter getState tbl) = None).
Proof.
  unfold tableAfter, outcomeOf. rewrite !getState_eq. simpl.
  split; [done|]. by intros ->.
Qed.

Lemma read_is_side_effect_free_witness :
  let tbl : gmap string Item := ∅ in
  stored tbl = None
  ∧ outcomeOf getState tbl = Resolved (mkSystemState (Some 1) (Some 0) None)
  ∧ tableAfter getState tbl = tbl
  ∧ stored (tableAfter getState tbl) = None.
Proof.
  split; [reflexivity|].
  exact (proj2 (read_is_side_effect_free ∅ ∅) eq_refl).
Defined.

(** ** Unknown actions *)

(** C9. The mutator rejects exactly the events whose action is none of
    FAILURE, SUCCESS and RESET; it rejects them with the error that names
    the action and leaves the table as it found it. *)
Theorem unknown_action_rejected
    (event : Event) (now : string) (tbl : gmap string Item) :
  ((∃ e, outcomeOf (handler event now) tbl = Rejected e)
   ↔ action event ≠ JStr "FAILURE" ∧ action event ≠ JStr "SUCCESS"
     ∧ action event ≠ JStr "RESET")
  ∧ (action event ≠ JStr "FAILURE" ∧ action event ≠ JStr "SUCCESS"
     ∧ action event ≠ JStr "RESET" →
     handler event now tbl = (Rejected (UnknownAction (action event)), tbl)).
Proof.
  rewrite <- knownAction_false. unfold outcomeOf.
  destruct (handler_cases event now tbl)
    as [[Ha ->]|[[Ha ->]|[[Ha ->]|[Ha ->]]]].
  - rewrite handleFailure_eq, Ha. simpl. split; [|done].
    split; [by intros [e ?]|done].
  - rewrite handleSuccess_eq, Ha. simpl. split; [|done].
    split; [by intros [e ?]|done].
  - rewrite handleReset_eq, Ha. simpl. split; [|done].
    split; [by intros [e ?]|done].
  - simpl. split; [|done]. split; [done|]. intros _. by eexists.
Qed.

Lemma unknown_action_rejected_witness :
  let event := mkEvent (JStr "PROMOTE") (JBool false) in
  let tbl : gmap string Item :=
    {[ PK := mkItem (Some 5) (Some 2) (Some 3) (Some "t0") ]} in
  (action event ≠ JStr "FAILURE" ∧ action event ≠ JStr "SUCCESS"
   ∧ action event ≠ JStr "RESET")
  ∧ handler event "t1" tbl = (Rejected (UnknownAction (JStr "PROMOTE")), tbl).
Proof.
  assert (JStr "PROMOTE" ≠ JStr "FAILURE" ∧ JStr "PROMOTE" ≠ JStr "SUCCESS"
          ∧ JStr "PROMOTE" ≠ JStr "RESET") as Hunknown
    by (repeat split; discriminate).
  split; [exact Hunknown|].
  exact (proj2 (unknown_action_rejected
                  (mkEvent (JStr "PROMOTE") (JBool false)) "t1"
                  {[ PK := mkItem (Some 5) (Some 2) (Some 3) (Some "t0") ]})
           Hunknown).
Defined.

(** ** A record created by a failure *)

(** C10. When the record is absent and the mutator is first called with
    FAILURE, up to four times, the record it leaves has [errorCount],
    [recoveryPoints] and [lastUpdated] and no [currentLevel]; the reader then
    returns an undefined [currentLevel], while the mutator reads tier 1: the
    next failure reports tier 1 (or the step to tier 2 at the fifth), and the
    next success takes the tier 1 branch. *)
Theorem failure_first_record_has_no_level
    (tbl : gmap string Item) (clock : list string) (event : Event)
    (now : string) :
  stored tbl = None →
  (0 < length clock < 5)%nat →
  let n := Z.of_nat (length clock) in
  let tbl' := run (times FAILURE clock) tbl in
  stored tbl' = Some (mkItem (Some n) None (Some 0) (last clock))
  ∧ outcomeOf getState tbl'
    = Resolved (mkSystemState None (Some n) (last clock))
  ∧ tier tbl' = 1
  ∧ outcomeOf (handleFailure now) tbl'
    = Resolved (mkResult "FAILURE" (Some (n + 1)) (if n + 1 =? 5 then 2 else 1)
                  None (n + 1 =? 5) (Some now) None)
  ∧ stored (tableAfter (handleSuccess event now) tbl')
    = Some (mkItem (Some (n - 1)) (Some 1) (Some 0) (Some now)).
Proof.
  intros Hst Hlen n tbl'.
  assert (stored tbl' = Some (mkItem (Some n) None (Some 0) (last clock)))
    as Hst'.
  { subst tbl' n. rewrite stored_run, Hst.
    do 5 (destruct clock as [|? clock]; [simpl in Hlen; try lia; reflexivity|]).
    simpl in Hlen. lia. }
  assert (n = 1 ∨ n = 2 ∨ n = 3 ∨ n = 4) as Hn by (subst n; lia).
  split; [done|].
  unfold outcomeOf, tableAfter.
  rewrite getState_eq, handleFailure_eq, handleSuccess_eq. simpl.
  rewrite stored_insert. unfold tier. rewrite Hst'. simpl.
  split; [done|]. split; [done|].
  destruct Hn as [-> | [-> | [-> | ->]]];
    by destruct (strict_true (hadErrorFlag event)).
Qed.

Lemma failure_first_record_has_no_level_witness :
  let tbl : gmap string Item := ∅ in
  let clock := ["t1"; "t2"] in
  let tbl' := run (times FAILURE clock) tbl in
  stored tbl = None
  ∧ (0 < length clock < 5)%nat
  ∧ stored tbl' = Some (mkItem (Some 2) None (Some 0) (Some "t2"))
  ∧ outcomeOf getState tbl'
    = Resolved (mkSystemState None (Some 2) (Some "t2"))
  ∧ tier tbl' = 1
  ∧ outcomeOf (handleFailure "t3") tbl'
    = Resolved (mkResult "FAILURE" (Some 3) 1 None false (Some "t3") None)
  ∧ stored (tableAfter (handleSuccess (SUCCESS false) "t3") tbl')
    = Some (mkItem (Some 1) (Some 1) (Some 0) (Some "t3")).
Proof.
  split; [reflexivity|]. split; [simpl; lia|].
  exact (failure_first_record_has_no_level ∅ ["t1"; "t2"] (SUCCESS false) "t3"
           eq_refl ltac:(simpl; lia)).
Defined.

(** * Further properties of the mutator and the reader *)

(** ** What sequential runs preserve *)

Lemma tier1_has_no_points_step event v :
  (v.1.2 = 1 → v.2 = 0) →
  (stepView event v).1.2 = 1 → (stepView event v).2 = 0.
Proof.
  destruct v as [[e t] p]. unfold stepView, failureLevel, successFields.
  simpl. intros Hv.
  destruct (strict_str (action event) "FAILURE"); [done|].
  destruct (strict_str (action event) "SUCCESS").
  { destruct (strict_true (hadErrorFlag event)); zcases; simpl; lia. }
  destruct (strict_str (action event) "RESET"); done.
Qed.

Lemma tier1_has_no_points_run calls tbl :
  (tier tbl = 1 → points tbl = 0) →
  tier (run calls tbl) = 1 → points (run calls tbl) = 0.
Proof.
  revert tbl. induction calls as [|[event now] calls IH]; intros tbl Hv; [done|].
  simpl. apply IH.
  pose proof (view_handler event now tbl) as Hstep.
  pose proof (tier1_has_no_points_step event (view tbl) Hv) as H.
  rewrite <- Hstep in H. exact H.
Qed.

(** X1. In every state reached from the default record by a sequential run
    the tier is 1, 2 or 3, the error count is not negative and stays below
    the threshold of the next tier (5 at tier 1, 10 at tier 2), and the
    recovery points lie between 0 and 9 and are 0 at tier 1. *)
Theorem run_keeps_invariant
    (init : gmap string Item) (calls : list (Event * string)) :
  isDefault (stored init) = true →
  let tbl := run calls init in
  1 ≤ tier tbl ≤ 3
  ∧ 0 ≤ errors tbl
  ∧ 0 ≤ points tbl ≤ 9
  ∧ (tier tbl = 1 → errors tbl ≤ 4 ∧ points tbl = 0)
  ∧ (tier tbl = 2 → errors tbl ≤ 9).
Proof.
  intros Hd tbl.
  pose proof (sound_run calls init (sound_default _ Hd)) as Hs.
  fold tbl in Hs. unfold sound, view in Hs.
  unfold THRESHOLDS.RECOVERY_POINTS, THRESHOLDS.DEGRADE_TO_L2,
    THRESHOLDS.DEGRADE_TO_L3 in Hs.
  destruct Hs as (Ht & He & Hp & H1 & H2).
  assert (tier tbl = 1 → points tbl = 0) as H0.
  { apply tier1_has_no_points_run. intros _.
    apply view_default in Hd. unfold view in Hd. by injection Hd. }
  split; [done|]. split; [done|]. split; [lia|].
  split; intros H; [specialize (H1 H); specialize (H0 H)|specialize (H2 H)];
    lia.
Qed.

Lemma run_keeps_invariant_witness :
  let init : gmap string Item := ∅ in
  let calls :=
    (times FAILURE ["t1"; "t2"; "t3"; "t4"; "t5"; "t6"]
     ++ times (SUCCESS false) ["t7"; "t8"])%list in
  let tbl := run calls init in
  isDefault (stored init) = true
  ∧ view tbl = (6, 2, 2)
  ∧ 1 ≤ tier tbl ≤ 3
  ∧ 0 ≤ errors tbl
  ∧ 0 ≤ points tbl ≤ 9
  ∧ (tier tbl = 1 → errors tbl ≤ 4 ∧ points tbl = 0)
  ∧ (tier tbl = 2 → errors tbl ≤ 9).
Proof.
  split; [reflexivity|]. split; [reflexivity|].
  exact (run_keeps_invariant ∅
           (times FAILURE ["t1"; "t2"; "t3"; "t4"; "t5"; "t6"]
            ++ times (SUCCESS false) ["t7"; "t8"])%list eq_refl).
Defined.

Lemma handler_frame event now (tbl : gmap string Item) key :
  key ≠ PK → tableAfter (handler event now) tbl !! key = tbl !! key.
Proof.
  intros Hk. unfold tableAfter.
  destruct (handler_cases event now tbl)
    as [[_ ->]|[[_ ->]|[[_ ->]|[_ ->]]]];
    rewrite ?handleFailure_eq, ?handleSuccess_eq, ?handleReset_eq; simpl;
    by rewrite ?lookup_insert_ne.
Qed.

(** X2. The mutator and the reader touch the singleton key only: whatever
    the events, a run leaves every item stored under another key as it
    was, and so does a read. *)
Theorem run_touches_only_PK
    (calls : list (Event * string)) (tbl : gmap string Item) (key : string) :
  key ≠ PK →
  run calls tbl !! key = tbl !! key
  ∧ tableAfter getState tbl !! key = tbl !! key.
Proof.
  intros Hk. split.
  - revert tbl. induction calls as [|[event now] calls IH]; intros tbl; [done|].
    simpl. rewrite IH. by apply handler_frame.
  - unfold tableAfter. by rewrite getState_eq.
Qed.

Lemma run_touches_only_PK_witness :
  let other := mkItem (Some 42) (Some 3) None None in
  let tbl : gmap string Item := {[ "OTHER" := other ]} in
  let calls := [(FAILURE, "t1"); (SUCCESS true, "t2"); (RESET, "t3")] in
  "OTHER" ≠ PK
  ∧ run calls tbl !! "OTHER" = Some other
  ∧ tableAfter getState tbl !! "OTHER" = Some other.
Proof.
  assert ("OTHER" ≠ PK) as Hk by discriminate.
  split; [exact Hk|].
  exact (run_touches_only_PK
           [(FAILURE, "t1"); (SUCCESS true, "t2"); (RESET, "t3")]
           {[ "OTHER" := mkItem (Some 42) (Some 3) None None ]} "OTHER" Hk).
Defined.

(** ** What the mutator returns, and what the reader then sees *)

Lemma tier_insert (it : Item) (tbl : gmap string Item) :
  tier (<[PK := it]> tbl) = tierOf (Some it).
Proof. unfold tier. by rewrite stored_insert. Qed.

(** X3. What an invocation of the mutator resolves to describes the record
    it leaves: the reported tier is the tier of the record, the reported
    error count and timestamp are the stored ones, the timestamp is the
    clock reading of the call, and for FAILURE and SUCCESS [levelChanged]
    is true exactly when the tier differs from the one found. *)
Theorem handler_result_matches_record
    (event : Event) (now : string) (tbl : gmap string Item)
    (r : MutatorResult) :
  outcomeOf (handler event now) tbl = Resolved r →
  let tbl' := tableAfter (handler event now) tbl in
  res_currentLevel r = tier tbl'
  ∧ res_errorCount r = stored tbl' ≫= errorCount
  ∧ res_lastUpdated r = stored tbl' ≫= lastUpdated
  ∧ res_lastUpdated r = Some now
  ∧ (action event ≠ JStr "RESET" →
     res_levelChanged r = negb (tier tbl' =? tier tbl)).
Proof.
  unfold outcomeOf, tableAfter.
  destruct (handler_cases event now tbl)
    as [[Ha ->]|[[Ha ->]|[[Ha ->]|[Ha ->]]]].
  - rewrite handleFailure_eq. cbn [fst snd]. intros [= <-].
    cbn [res_currentLevel res_errorCount res_lastUpdated res_levelChanged].
    rewrite tier_insert, tierOf_afterFailure, stored_insert.
    unfold errorsOf, tier. rewrite js_or_zero. done.
  - rewrite handleSuccess_eq. cbn [fst snd]. intros [= <-].
    rewrite tier_insert, stored_insert.
    pose proof (view_afterSuccess (strict_true (hadErrorFlag event)) now
                  (stored tbl)) as Hv.
    apply (f_equal (λ v, v.1.2)) in Hv. cbn [fst snd] in Hv. rewrite Hv.
    unfold successResult, afterSuccess, tier.
    destruct (stored tbl) as [it|] eqn:Hst;
      [|by destruct (strict_true (hadErrorFlag event))].
    by destruct (successFields _ _ _ _) as [[e t] p].
  - rewrite handleReset_eq. cbn [fst snd]. intros [= <-].
    rewrite tier_insert, stored_insert. done.
  - simpl. discriminate.
Qed.

Lemma handler_result_matches_record_witness :
  let tbl : gmap string Item :=
    {[ PK := mkItem (Some 9) (Some 2) (Some 4) (Some "t0") ]} in
  let r := mkResult "FAILURE" (Some 10) 3 None true (Some "t1") None in
  let tbl' := tableAfter (handler FAILURE "t1") tbl in
  outcomeOf (handler FAILURE "t1") tbl = Resolved r
  ∧ res_currentLevel r = tier tbl'
  ∧ res_errorCount r = stored tbl' ≫= errorCount
  ∧ res_lastUpdated r = stored tbl' ≫= lastUpdated
  ∧ res_lastUpdated r = Some "t1"
  ∧ (action FAILURE ≠ JStr "RESET" →
     res_levelChanged r = negb (tier tbl' =? tier tbl)).
Proof.
  split; [reflexivity|].
  exact (handler_result_matches_record FAILURE "t1"
           {[ PK := mkItem (Some 9) (Some 2) (Some 4) (Some "t0") ]}
           (mkResult "FAILURE" (Some 10) 3 None true (Some "t1") None)
           eq_refl).
Defined.

(** X4. A read that follows a mutation returns what the mutation reported:
    its tier, error count and timestamp. This holds after every SUCCESS and
    RESET, and after a FAILURE that changed the tier or found a record whose
    [currentLevel] was already stored. *)
Theorem read_after_mutation
    (event : Event) (now : string) (tbl : gmap string Item)
    (r : MutatorResult) :
  outcomeOf (handler event now) tbl = Resolved r →
  action event = JStr "SUCCESS" ∨ action event = JStr "RESET"
  ∨ res_levelChanged r = true
  ∨ stored tbl ≫= currentLevel = Some (tier tbl) →
  outcomeOf getState (tableAfter (handler event now) tbl)
  = Resolved (mkSystemState (Some (res_currentLevel r)) (res_errorCount r)
                (res_lastUpdated r)).
Proof.
  unfold outcomeOf, tableAfter. rewrite getState_eq. cbn [fst].
  destruct (handler_cases event now tbl)
    as [[Ha ->]|[[Ha ->]|[[Ha ->]|[Ha ->]]]].
  - rewrite handleFailure_eq. cbn [fst snd]. intros [= <-].
    rewrite stored_insert. unfold afterFailure. simpl.
    fold (tier tbl).
    set (t' := failureLevel _ _).
    intros [H|[H|[H|H]]]; try congruence.
    + apply negb_true_iff in H. by rewrite H.
    + rewrite H. by destruct (Z.eqb_spec t' (tier tbl)) as [->|].
  - rewrite handleSuccess_eq. cbn [fst snd]. intros [= <-] _.
    rewrite stored_insert. unfold afterSuccess, successResult.
    destruct (stored tbl); [|done].
    by destruct (successFields _ _ _ _) as [[e t] p].
  - rewrite handleReset_eq. cbn [fst snd]. intros [= <-] _.
    by rewrite stored_insert.
  - simpl. discriminate.
Qed.

Lemma read_after_mutation_witness :
  let tbl : gmap string Item :=
    {[ PK := mkItem (Some 3) (Some 2) (Some 9) (Some "t0") ]} in
  let event := SUCCESS false in
  let r := mkResult "SUCCESS" (Some 0) 1 (Some 0) true (Some "t1") None in
  outcomeOf (handler event "t1") tbl = Resolved r
  ∧ (action event = JStr "SUCCESS" ∨ action event = JStr "RESET"
     ∨ res_levelChanged r = true
     ∨ stored tbl ≫= currentLevel = Some (tier tbl))
  ∧ outcomeOf getState (tableAfter (handler event "t1") tbl)
    = Resolved (mkSystemState (Some 1) (Some 0) (Some "t1")).
Proof.
  split; [reflexivity|]. split; [left; reflexivity|].
  exact (read_after_mutation (SUCCESS false) "t1"
           {[ PK := mkItem (Some 3) (Some 2) (Some 9) (Some "t0") ]}
           (mkResult "SUCCESS" (Some 0) 1 (Some 0) true (Some "t1") None)
           eq_refl (or_introl eq_refl)).
Defined.

Lemma stepStored_keeps_agreement event now o :
  o ≫= currentLevel = Some (tierOf o) ∧ o ≫= errorCount = Some (errorsOf o) →
  stepStored event now o ≫= currentLevel
  = Some (tierOf (stepStored event now o))
  ∧ stepStored event now o ≫= errorCount
    = Some (errorsOf (stepStored event now o)).
Proof.
  intros [Hl He]. unfold stepStored.
  destruct (strict_str (action event) "FAILURE").
  { rewrite tierOf_afterFailure, errorsOf_afterFailure.
    unfold afterFailure. cbn [mbind option_bind currentLevel errorCount].
    rewrite Hl. unfold errorsOf. rewrite js_or_zero. split; [|done].
    set (t' := failureLevel _ _).
    by destruct (Z.eqb_spec t' (tierOf o)) as [->|]. }
  destruct (strict_str (action event) "SUCCESS").
  { pose proof (view_afterSuccess (strict_true (hadErrorFlag event)) now o)
      as Hv.
    destruct o as [it|]; [|done]. unfold afterSuccess in *.
    destruct (successFields _ _ _ _) as [[e t] p].
    by injection Hv as -> -> _. }
  destruct (strict_str (action event) "RESET"); done.
Qed.

(** X5. Once the record stores a [currentLevel] that is not 0 and an
    [errorCount], it does so after every further sequential run, and a read
    then returns exactly the tier and the error count that the mutator
    works with. *)
Theorem reads_agree_with_mutator
    (tbl : gmap string Item) (calls : list (Event * string)) :
  stored tbl ≫= currentLevel = Some (tier tbl) →
  stored tbl ≫= errorCount = Some (errors tbl) →
  let tbl' := run calls tbl in
  outcomeOf getState tbl'
  = Resolved (mkSystemState (Some (tier tbl')) (Some (errors tbl'))
                (stored tbl' ≫= lastUpdated)).
Proof.
  intros Hl He tbl'.
  assert (stored tbl' ≫= currentLevel = Some (tier tbl')
          ∧ stored tbl' ≫= errorCount = Some (errors tbl')) as [Hl' He'].
  { subst tbl'. revert tbl Hl He.
    induction calls as [|[event now] calls IH]; intros tbl Hl He; [done|].
    simpl. apply IH; unfold tier, errors; rewrite stored_handler;
      by apply stepStored_keeps_agreement. }
  unfold outcomeOf. rewrite getState_eq. simpl.
  destruct (stored tbl') as [it|] eqn:Hst; simpl in *; [|done].
  by rewrite Hl', He'.
Qed.

Lemma reads_agree_with_mutator_witness :
  let tbl := tableAfter (handler RESET "t0") (∅ : gmap string Item) in
  let calls :=
    (times FAILURE ["t1"; "t2"; "t3"; "t4"; "t5"]
     ++ [(SUCCESS false, "t6")])%list in
  stored tbl ≫= currentLevel = Some (tier tbl)
  ∧ stored tbl ≫= errorCount = Some (errors tbl)
  ∧ outcomeOf getState (run calls tbl)
    = Resolved (mkSystemState (Some 2) (Some 5) (Some "t6")).
Proof.
  split; [reflexivity|]. split; [reflexivity|].
  exact (reads_agree_with_mutator
           (tableAfter (handler RESET "t0") (∅ : gmap string Item))
           (times FAILURE ["t1"; "t2"; "t3"; "t4"; "t5"]
            ++ [(SUCCESS false, "t6")])%list eq_refl eq_refl).
Defined.

(** ** Successes at tier 1, and runs of interruptions *)



(** X7. Failures and protected successes never lower the tier, in any
    state, and from tier 3 they leave it at 3: no run made of them alone
    promotes. *)
Theorem interruptions_never_promote
    (tbl : gmap string Item) (calls : list (Event * string)) :
  Forall (λ call, call.1 = FAILURE ∨ call.1 = SUCCESS true) calls →
  tier tbl ≤ tier (run calls tbl)
  ∧ (tier tbl = 3 → tier (run calls tbl) = 3).
Proof.
  revert tbl. induction calls as [|[event now] calls IH]; intros tbl Hall.
  - done.
  - apply Forall_cons in Hall as [Hev Hall]. simpl in Hev. simpl.
    destruct (IH (tableAfter (handler event now) tbl) Hall) as [IHle IH3].
    pose proof (view_handler event now tbl) as Hv. unfold view in Hv.
    assert (tier tbl ≤ tier (tableAfter (handler event now) tbl)
            ∧ (tier tbl = 3 → tier (tableAfter (handler event now) tbl) = 3))
      as [Hle H3].
    { destruct Hev as [-> | ->]; simpl in Hv; revert Hv;
        unfold failureLevel, successFields, THRESHOLDS.DEGRADE_TO_L3,
          THRESHOLDS.DEGRADE_TO_L2;
        zcases; intros [= _ -> _]; lia. }
    split; [lia|]. intros Ht. apply IH3. by apply H3.
Qed.

Lemma interruptions_never_promote_witness :
  let tbl : gmap string Item :=
    {[ PK := mkItem (Some 12) (Some 3) (Some 9) (Some "t0") ]} in
  let calls := [(FAILURE, "t1"); (SUCCESS true, "t2"); (FAILURE, "t3")] in
  Forall (λ call, call.1 = FAILURE ∨ call.1 = SUCCESS true) calls
  ∧ tier tbl = 3
  ∧ tier tbl ≤ tier (run calls tbl)
  ∧ (tier tbl = 3 → tier (run calls tbl) = 3).
Proof.
  assert (Forall (λ call : Event * string,
                    call.1 = FAILURE ∨ call.1 = SUCCESS true)
            [(FAILURE, "t1"); (SUCCESS true, "t2"); (FAILURE, "t3")])
    as Hall.
  { apply Forall_cons; split; [left; reflexivity|].
    apply Forall_cons; split; [right; reflexivity|].
    apply Forall_cons; split; [left; reflexivity|]. apply Forall_nil_2. }
  split; [exact Hall|]. split; [reflexivity|].
  exact (interruptions_never_promote
           {[ PK := mkItem (Some 12) (Some 3) (Some 9) (Some "t0") ]}
           [(FAILURE, "t1"); (SUCCESS true, "t2"); (FAILURE, "t3")] Hall).
Defined.

(** X8. The single step of a failure rests on the invariant of sequential
    runs, not on [handleFailure] alone: on a record at tier 1 whose error
    count is already 9 or more, one failure writes tier 3 and reports the
    change, passing over tier 2. *)
Theorem failure_skips_tier_outside_invariant
    (tbl : gmap string Item) (now : string) :
  tier tbl = 1 →
  9 ≤ errors tbl →
  tier (tableAfter (handleFailure now) tbl) = 3
  ∧ outcomeOf (handleFailure now) tbl
    = Resolved (mkResult "FAILURE" (Some (errors tbl + 1)) 3 None true
                  (Some now) None).
Proof.
  intros Ht He.
  pose proof (view_failure now tbl) as Hv. unfold view in Hv.
  injection Hv as _ Hv _. rewrite Hv.
  unfold outcomeOf. rewrite handleFailure_eq. cbn [fst].
  unfold errors, errorsOf in *. rewrite js_or_zero in *.
  rewrite Ht. unfold failureLevel, THRESHOLDS.DEGRADE_TO_L3.
  destruct (Z.leb_spec 10 (default 0 (stored tbl ≫= errorCount) + 1));
    [done|lia].
Qed.

Lemma failure_skips_tier_outside_invariant_witness :
  let tbl : gmap string Item :=
    {[ PK := mkItem (Some 9) (Some 1) (Some 0) (Some "t0") ]} in
  tier tbl = 1
  ∧ 9 ≤ errors tbl
  ∧ tier (tableAfter (handleFailure "t1") tbl) = 3
  ∧ outcomeOf (handleFailure "t1") tbl
    = Resolved (mkResult "FAILURE" (Some 10) 3 None true (Some "t1") None).
Proof.
  split; [reflexivity|]. split; [vm_compute; discriminate|].
  exact (failure_skips_tier_outside_invariant
           {[ PK := mkItem (Some 9) (Some 1) (Some 0) (Some "t0") ]} "t1"
           eq_refl ltac:(vm_compute; discriminate)).
Defined.

(** ** Recovery takes full streaks *)

(** X9. From tier 3 with no recovery points, twenty genuine successes in a
    row recover tier 1 in two steps: the record is at tier 2 with both
    counters 0 after the tenth and at tier 1 with both counters 0 after the
    twentieth. *)
Theorem recovery_from_maintenance
    (tbl : gmap string Item) (clock : list string) :
  tier tbl = 3 →
  points tbl = 0 →
  length clock = 20%nat →
  view (run (times (SUCCESS false) (take 10 clock)) tbl) = (0, 2, 0)
  ∧ view (run (times (SUCCESS false) clock) tbl) = (0, 1, 0).
Proof.
  intros Ht Hp Hlen.
  do 21 (destruct clock as [|? clock]; try discriminate Hlen).
  rewrite !view_run. unfold view. by rewrite Ht, Hp.
Qed.

Lemma recovery_from_maintenance_witness :
  let tbl : gmap string Item :=
    {[ PK := mkItem (Some 14) (Some 3) (Some 0) (Some "t0") ]} in
  let clock := replicate 20 "t" in
  tier tbl = 3
  ∧ points tbl = 0
  ∧ length clock = 20%nat
  ∧ view (run (times (SUCCESS false) (take 10 clock)) tbl) = (0, 2, 0)
  ∧ view (run (times (SUCCESS false) clock) tbl) = (0, 1, 0).
Proof.
  split; [reflexivity|]. split; [reflexivity|]. split; [reflexivity|].
  exact (recovery_from_maintenance
           {[ PK := mkItem (Some 14) (Some 3) (Some 0) (Some "t0") ]}
           (replicate 20 "t") eq_refl eq_refl eq_refl).
Defined.

(** X10. While degraded, a promotion cannot come early: from tier 2 or 3
    with [p] recovery points, no run of fewer than [10 - p] calls that
    contains no RESET lowers the tier, whatever the calls are. *)
Theorem no_early_promotion
    (tbl : gmap string Item) (calls : list (Event * string)) :
  tier tbl = 2 ∨ tier tbl = 3 →
  0 ≤ points tbl →
  Forall (λ call, action call.1 ≠ JStr "RESET") calls →
  points tbl + Z.of_nat (length calls) < THRESHOLDS.RECOVERY_POINTS →
  tier tbl ≤ tier (run calls tbl) ≤ 3.
Proof.
  revert tbl.
  induction calls as [|[event now] calls IH]; intros tbl Ht Hp Hall Hlen.
  - simpl. lia.
  - apply Forall_cons in Hall as [Hev Hall]. simpl in Hev, Hlen. simpl.
    pose proof (view_handler event now tbl) as Hv. unfold view in Hv.
    set (tbl1 := tableAfter (handler event now) tbl) in *.
    assert (tier tbl ≤ tier tbl1 ∧ (tier tbl1 = 2 ∨ tier tbl1 = 3)
            ∧ 0 ≤ points tbl1 ≤ points tbl + 1) as (Hle & Ht1 & Hp1).
    { revert Hv. unfold stepView.
      destruct (strict_str (action event) "FAILURE").
      { unfold failureLevel, THRESHOLDS.DEGRADE_TO_L3,
          THRESHOLDS.DEGRADE_TO_L2.
        zcases; intros [= _ -> ->]; lia. }
      destruct (strict_str (action event) "SUCCESS").
      { unfold successFields, THRESHOLDS.DEGRADE_TO_L3,
          THRESHOLDS.RECOVERY_POINTS in *.
        destruct (strict_true (hadErrorFlag event));
          zcases; intros [= _ -> ->]; lia. }
      destruct (strict_str (action event) "RESET") eqn:HR.
      { apply strict_str_true in HR. done. }
      intros [= _ -> ->]. lia. }
    specialize (IH tbl1 Ht1 ltac:(lia) Hall ltac:(lia)). lia.
Qed.

Lemma no_early_promotion_witness :
  let tbl : gmap string Item :=
    {[ PK := mkItem (Some 5) (Some 2) (Some 7) (Some "t0") ]} in
  let calls := [(SUCCESS false, "t1"); (SUCCESS false, "t2")] in
  (tier tbl = 2 ∨ tier tbl = 3)
  ∧ 0 ≤ points tbl
  ∧ Forall (λ call, action call.1 ≠ JStr "RESET") calls
  ∧ points tbl + Z.of_nat (length calls) < THRESHOLDS.RECOVERY_POINTS
  ∧ points (run calls tbl) = 9
  ∧ tier tbl ≤ tier (run calls tbl) ≤ 3.
Proof.
  assert (Forall (λ call : Event * string, action call.1 ≠ JStr "RESET")
            [(SUCCESS false, "t1"); (SUCCESS false, "t2")]) as Hall.
  { apply Forall_cons; split; [discriminate|].
    apply Forall_cons; split; [discriminate|]. apply Forall_nil_2. }
  split; [left; reflexivity|]. split; [vm_compute; discriminate|].
  split; [exact Hall|]. split; [reflexivity|]. split; [reflexivity|].
  exact (no_early_promotion
           {[ PK := mkItem (Some 5) (Some 2) (Some 7) (Some "t0") ]}
           [(SUCCESS false, "t1"); (SUCCESS false, "t2")]
           (or_introl eq_refl) ltac:(vm_compute; discriminate) Hall eq_refl).
Defined.

(** X11. Calls with an unknown action do not take part in a run: the run
    leaves the table that the calls with a known action alone leave. *)
Theorem unknown_actions_are_skipped
    (calls : list (Event * string)) (tbl : gmap string Item) :
  run calls tbl
  = run (filter (λ call, knownAction (action call.1) = true) calls) tbl.
Proof.
  revert tbl. induction calls as [|[event now] calls IH]; intros tbl; [done|].
  rewrite filter_cons. simpl.
  destruct (knownAction (action event)) eqn:Hk.
  - rewrite decide_True by done. simpl. apply IH.
  - rewrite decide_False by done. rewrite <- IH. f_equal.
    unfold tableAfter.
    destruct (handler_cases event now tbl)
      as [[Ha _]|[[Ha _]|[[Ha _]|[_ ->]]]]; [| | |done];
      rewrite Ha in Hk; discriminate.
Qed.

(** * The tier services *)

(** X12. [serviceL1] throws CRITICAL_FAILURE exactly when the [error] field
    of its event is the boolean [true]; for every other value, a truthy one
    like [1] or ["true"] included, it returns status 200 at level 1.
    [serviceL2] returns status 200 at level 2 whatever the event holds. *)
Theorem services_throw_iff_error_true (event : ServiceEvent) :
  (serviceL1 event = Threw "CRITICAL_FAILURE" ↔ error event = JBool true)
  ∧ (error event ≠ JBool true →
     serviceL1 event = Returned (mkServiceResult 200 1 "Full Capacity"))
  ∧ serviceL2 event = Returned (mkServiceResult 200 2 "Degraded Mode").
Proof.
  unfold serviceL1, serviceL2, rethrow.
  destruct event as [[| |[]|n|s]]; simpl; intuition congruence.
Qed.

Lemma services_throw_iff_error_true_witness :
  let event := mkServiceEvent (JStr "true") in
  error event ≠ JBool true
  ∧ serviceL1 event = Returned (mkServiceResult 200 1 "Full Capacity")
  ∧ serviceL1 (mkServiceEvent (JBool true)) = Threw "CRITICAL_FAILURE".
Proof.
  assert (JStr "true" ≠ JBool true) as Hne by discriminate.
  split; [exact Hne|]. split.
  - exact (proj1 (proj2 (services_throw_iff_error_true
                           (mkServiceEvent (JStr "true")))) Hne).
  - exact (proj2 (proj1 (services_throw_iff_error_true
                           (mkServiceEvent (JBool true)))) eq_refl).
Defined.

(** * The load profile of the k6 script *)

Lemma k6_quiet_from_minute_six (i : nat) :
  (100 ≤ i)%nat → K6.errorValue i = false.
Proof.
  intros Hi. unfold K6.errorValue, K6.minute.
  assert (5 ≤ i / 20)%nat as Hq.
  { change 5%nat with (100 / 20)%nat. by apply Nat.Div0.div_le_mono. }
  destruct (Nat.eqb_spec (i / 20 + 1) 1); [lia|].
  destruct (Nat.eqb_spec (i / 20 + 1) 3); [lia|].
  destruct (Nat.eqb_spec (i / 20 + 1) 5); [lia|]. done.
Qed.

(** X13. The script flags an iteration with [error: true] exactly when it
    is one of the first 5 of minute 1 or of the first 15 of minute 3 or of
    minute 5 (iterations 0 to 4, 40 to 54 and 80 to 94); of its 140
    iterations, 35 are flagged. *)
Theorem k6_error_profile (i : nat) :
  (K6.errorValue i = true
   ↔ (i < 5 ∨ 40 ≤ i < 55 ∨ 80 ≤ i < 95)%nat)
  ∧ filter (λ j, K6.errorValue j = true) (seq 0 K6.iterations)
    = (seq 0 5 ++ seq 40 15 ++ seq 80 15)%list.
Proof.
  split; [|by vm_compute].
  destruct (Nat.le_gt_cases 100 i) as [Hi|Hi].
  - rewrite k6_quiet_from_minute_six by done. split; [discriminate|lia].
  - do 100 (destruct i as [|i];
            [match goal with
             | |- K6.errorValue ?n = true ↔ _ =>
                 let b := eval vm_compute in (K6.errorValue n) in
                 change (K6.errorValue n) with b
             end;
             split; intros H; (discriminate H || reflexivity || lia)|]).
    lia.
Qed.

Lemma k6_error_profile_witness :
  (42 < 5 ∨ 40 ≤ 42 < 55 ∨ 80 ≤ 42 < 95)%nat ∧ K6.errorValue 42 = true.
Proof.
  assert (42 < 5 ∨ 40 ≤ 42 < 55 ∨ 80 ≤ 42 < 95)%nat as H by lia.
  split; [exact H|]. exact (proj2 (proj1 (k6_error_profile 42)) H).
Defined.

(** * The API handler *)

Section ApiHandler.
Context `{Api.Runtime}.

Lemma api_handler_cases (event : Api.Event) (sent : list string) :
  (∃ message,
     Api.inputOf event = inl message
     ∧ Api.handler event sent
       = (inr (Api.mkResponse (Api.JsonNum (Api.number 500)) Api.corsHeaders
                 (Api.JSON_stringify
                    (Api.JsonObj
                       [ ("status", Api.JsonNum (Api.number 500));
                         ("message", Api.JsonStr "Internal Server Error");
                         ("error", Api.JsonStr message) ]))),
          sent))
  ∨ (∃ input,
       Api.inputOf event = inr input
       ∧ ∃ response,
           Api.handler event sent
           = (inr response, (sent ++ [Api.JSON_stringify input])%list)
           ∧ Api.headers response = Api.corsHeaders
           ∧ (Api.statusCode response = Api.JsonNum (Api.number 500)
              ∨ ∃ result output,
                  Api.startSyncExecution (Api.JSON_stringify input)
                  = inr result
                  ∧ Api.exec_status result = Api.SUCCEEDED
                  ∧ Api.JSON_parse
                      (default "undefined" (Api.exec_output result))
                    = inr output
                  ∧ output ≠ Api.JsonNull
                  ∧ response
                    = Api.mkResponse
                        (Api.orElse (Api.statusOf output)
                           (Api.JsonNum (Api.number 200)))
                        Api.corsHeaders (Api.JSON_stringify output))).
Proof.
  unfold Api.handler, Api.tryCatch, Api.lift, Api.send, mbind, Api.M_bind,
    mret, Api.M_ret.
  destruct (Api.inputOf event) as [message|input] eqn:Hin.
  { left. by exists message. }
  right. exists input. split; [done|].
  destruct (Api.startSyncExecution (Api.JSON_stringify input))
    as [message|result] eqn:Hstart.
  { eexists. split; [done|]. split; [done|]. by left. }
  destruct (Api.exec_status result) eqn:Hstatus;
    [|eexists; split; [done|]; split; [done|]; by left ..].
  destruct (Api.JSON_parse (default "undefined" (Api.exec_output result)))
    as [message|output] eqn:Hparse.
  { eexists. split; [done|]. split; [done|]. by left. }
  destruct output as [|b|n|s|items|fields] eqn:Hout; simpl;
    [eexists; split; [done|]; split; [done|]; by left
    |eexists; split; [done|]; split; [done|]; right;
     exists result; eexists; by rewrite Hparse ..].
Qed.

(** X14. The API handler never throws: whatever the body, the parser and
    the workflow do, it resolves to a response that carries the
    [Content-Type] and [Access-Control-Allow-Origin] headers. It asks for at
    most one execution: none when the body cannot be parsed, and otherwise
    one whose input is the body parsed and serialised again. *)
Theorem api_always_responds (event : Api.Event) (sent : list string) :
  ∃ response,
    (Api.handler event sent).1 = inr response
    ∧ Api.headers response = Api.corsHeaders
    ∧ (Api.handler event sent).2
      = match Api.inputOf event with
        | inl _ => sent
        | inr input => (sent ++ [Api.JSON_stringify input])%list
        end.
Proof.
  destruct (api_handler_cases event sent)
    as [(message & Hin & ->)|(input & Hin & response & -> & Hh & _)];
    rewrite Hin; eexists; split; done.
Qed.

(** X15. A response of the API handler is a 500, or it passes on the output
    of an execution that succeeded: in that case the output parsed to a
    value other than [null], the body is that value serialised again, and
    the status code is its [status] if that is truthy and 200 otherwise. *)
Theorem api_response_is_500_or_output
    (event : Api.Event) (sent : list string) (response : Api.Response Api.Num) :
  (Api.handler event sent).1 = inr response →
  Api.statusCode response = Api.JsonNum (Api.number 500)
  ∨ ∃ input result output,
      Api.inputOf event = inr input
      ∧ Api.startSyncExecution (Api.JSON_stringify input) = inr result
      ∧ Api.exec_status result = Api.SUCCEEDED
      ∧ Api.JSON_parse (default "undefined" (Api.exec_output result))
        = inr output
      ∧ output ≠ Api.JsonNull
      ∧ Api.statusCode response
        = Api.orElse (Api.statusOf output) (Api.JsonNum (Api.number 200))
      ∧ Api.responseBody response = Api.JSON_stringify output.
Proof.
  destruct (api_handler_cases event sent)
    as [(message & Hin & ->)|(input & Hin & r & -> & Hh & Hr)]; simpl.
  - intros [= <-]. by left.
  - intros [= <-].
    destruct Hr as [H500|(result & output & H1 & H2 & H3 & H4 & ->)];
      [by left|right].
    by exists input, result, output.
Qed.

(** X16. An execution that did not succeed is answered with status 500 and
    the message "Step Function execution failed", with the error and the
    cause of the execution when it has them; its output is not read. *)
Theorem api_failed_execution
    (event : Api.Event) (sent : list string) (input : Api.Json Api.Num)
    (result : Api.SyncExecution) :
  Api.inputOf event = inr input →
  Api.startSyncExecution (Api.JSON_stringify input) = inr result →
  Api.exec_status result ≠ Api.SUCCEEDED →
  Api.handler event sent
  = (inr (Api.mkResponse (Api.JsonNum (Api.number 500)) Api.corsHeaders
            (Api.JSON_stringify
               (Api.JsonObj
                  ([ ("status", Api.JsonNum (Api.number 500));
                     ("message",
                      Api.JsonStr "Step Function execution failed") ]
                   ++ Api.optionalField "error" (Api.exec_error result)
                   ++ Api.optionalField "cause" (Api.exec_cause result))))),
     (sent ++ [Api.JSON_stringify input])%list).
Proof.
  intros Hin Hstart Hstatus.
  unfold Api.handler, Api.tryCatch, Api.lift, Api.send, mbind, Api.M_bind,
    mret, Api.M_ret.
  rewrite Hin, Hstart. by destruct (Api.exec_status result).
Qed.

(** X17. Everything that throws on the way is answered with status 500
    and the message "Internal Server Error" together with the message of the
    error: a client that throws, an output that cannot be parsed, and an
    output that is [null], whose [status] cannot be read. *)
Theorem api_thrown_error_is_500
    (event : Api.Event) (sent : list string) (input : Api.Json Api.Num)
    (message : string) :
  Api.inputOf event = inr input →
  Api.startSyncExecution (Api.JSON_stringify input) = inl message
  ∨ (∃ result,
       Api.startSyncExecution (Api.JSON_stringify input) = inr result
       ∧ Api.exec_status result = Api.SUCCEEDED
       ∧ (Api.JSON_parse (default "undefined" (Api.exec_output result))
          = inl message
          ∨ (Api.JSON_parse (default "undefined" (Api.exec_output result))
             = inr Api.JsonNull
             ∧ message = Api.nullPropertyMessage))) →
  Api.handler event sent
  = (inr (Api.mkResponse (Api.JsonNum (Api.number 500)) Api.corsHeaders
            (Api.JSON_stringify
               (Api.JsonObj
                  [ ("status", Api.JsonNum (Api.number 500));
                    ("message", Api.JsonStr "Internal Server Error");
                    ("error", Api.JsonStr message) ]))),
     (sent ++ [Api.JSON_stringify input])%list).
Proof.
  intros Hin Hthrow.
  unfold Api.handler, Api.tryCatch, Api.lift, Api.send, mbind, Api.M_bind,
    mret, Api.M_ret.
  rewrite Hin.
  destruct Hthrow as [->|(result & -> & -> & [->|[-> ->]])]; done.
Qed.

(** X18. The body decides whether the workflow runs. Without a body, or
    with the empty string as body, the execution is started with the empty
    object as input and the parser is not asked; a body that the parser
    rejects is answered with status 500 and the parser's message, and no
    execution is started. *)
Theorem api_body_edge_cases
    (sent : list string) (text message : string) :
  Api.handler (Api.mkEvent None) sent = Api.handler (Api.mkEvent (Some "")) sent
  ∧ (Api.handler (Api.mkEvent None) sent).2
    = (sent ++ [Api.JSON_stringify (Api.JsonObj [])])%list
  ∧ (text ≠ "" → Api.JSON_parse text = inl message →
     Api.handler (Api.mkEvent (Some text)) sent
     = (inr (Api.mkResponse (Api.JsonNum (Api.number 500)) Api.corsHeaders
               (Api.JSON_stringify
                  (Api.JsonObj
                     [ ("status", Api.JsonNum (Api.number 500));
                       ("message", Api.JsonStr "Internal Server Error");
                       ("error", Api.JsonStr message) ]))),
        sent)).
Proof.
  split; [done|]. split.
  - destruct (api_always_responds (Api.mkEvent None) sent)
      as (response & _ & _ & ->). done.
  - intros Htext Hparse.
    destruct (api_handler_cases (Api.mkEvent (Some text)) sent)
      as [(m & Hin & ->)|(input & Hin & _)];
      unfold Api.inputOf in Hin; simpl in Hin;
      rewrite bool_decide_eq_false_2 in Hin by done; congruence.
Qed.

End ApiHandler.

Lemma api_response_is_500_or_output_witness :
  let event := Api.mkEvent (Some "MAINTENANCE") in
  let response :=
    Api.mkResponse (Api.JsonNum 503) Api.corsHeaders "MAINTENANCE" in
  ((Api.handler (H := Api.exampleRuntime) event []).1 = inr response)
  ∧ (Api.statusCode response = Api.JsonNum 500
     ∨ ∃ input result output,
         Api.inputOf (H := Api.exampleRuntime) event = inr input
         ∧ Api.startSyncExecution (Runtime := Api.exampleRuntime)
             (Api.JSON_stringify (Runtime := Api.exampleRuntime) input)
           = inr result
         ∧ Api.exec_status result = Api.SUCCEEDED
         ∧ Api.JSON_parse (Runtime := Api.exampleRuntime)
             (default "undefined" (Api.exec_output result))
           = inr output
         ∧ output ≠ Api.JsonNull
         ∧ Api.statusCode response
           = Api.orElse (H := Api.exampleRuntime) (Api.statusOf output)
               (Api.JsonNum 200)
         ∧ Api.responseBody response
           = Api.JSON_stringify (Runtime := Api.exampleRuntime) output).
Proof.
  split; [reflexivity|].
  exact (api_response_is_500_or_output (H := Api.exampleRuntime)
           (Api.mkEvent (Some "MAINTENANCE")) []
           (Api.mkResponse (Api.JsonNum 503) Api.corsHeaders "MAINTENANCE")
           eq_refl).
Defined.

Lemma api_failed_execution_witness :
  let event := Api.mkEvent (Some "OK") in
  let input : Api.Json Z :=
    Api.JsonObj [("status", Api.JsonNum 200); ("level", Api.JsonNum 1)] in
  let result :=
    Api.mkSyncExecution Api.FAILED None (Some "States.TaskFailed") None in
  Api.inputOf (H := Api.exampleRuntime) event = inr input
  ∧ Api.startSyncExecution (Runtime := Api.exampleRuntime) "OK" = inr result
  ∧ Api.exec_status result ≠ Api.SUCCEEDED
  ∧ Api.handler (H := Api.exampleRuntime) event ["EARLIER"]
    = (inr (Api.mkResponse (Api.JsonNum 500) Api.corsHeaders
              (Api.JSON_stringify (Runtime := Api.exampleRuntime)
                 (Api.JsonObj
                    [ ("status", Api.JsonNum 500);
                      ("message",
                       Api.JsonStr "Step Function execution failed");
                      ("error", Api.JsonStr "States.TaskFailed") ]))),
       ["EARLIER"; "OK"]).
Proof.
  assert (Api.FAILED ≠ Api.SUCCEEDED) as Hne by discriminate.
  split; [reflexivity|]. split; [reflexivity|]. split; [exact Hne|].
  exact (api_failed_execution (H := Api.exampleRuntime)
           (Api.mkEvent (Some "OK")) ["EARLIER"]
           (Api.JsonObj [("status", Api.JsonNum 200); ("level", Api.JsonNum 1)])
           (Api.mkSyncExecution Api.FAILED None (Some "States.TaskFailed") None)
           eq_refl eq_refl Hne).
Defined.

Lemma api_thrown_error_is_500_witness :
  let event := Api.mkEvent (Some "BAD") in
  let input : Api.Json Z := Api.JsonObj [("status", Api.JsonNum 0)] in
  Api.inputOf (H := Api.exampleRuntime) event = inr input
  ∧ Api.startSyncExecution (Runtime := Api.exampleRuntime) "BAD"
    = inl "ServiceUnavailable"
  ∧ Api.handler (H := Api.exampleRuntime) event []
    = (inr (Api.mkResponse (Api.JsonNum 500) Api.corsHeaders
              (Api.JSON_stringify (Runtime := Api.exampleRuntime)
                 (Api.JsonObj
                    [ ("status", Api.JsonNum 500);
                      ("message", Api.JsonStr "Internal Server Error");
                      ("error", Api.JsonStr "ServiceUnavailable") ]))),
       ["BAD"]).
Proof.
  split; [reflexivity|]. split; [reflexivity|].
  exact (api_thrown_error_is_500 (H := Api.exampleRuntime)
           (Api.mkEvent (Some "BAD")) []
           (Api.JsonObj [("status", Api.JsonNum 0)]) "ServiceUnavailable"
           eq_refl (or_introl eq_refl)).
Defined.

Lemma api_body_edge_cases_witness :
  "{" ≠ ""
  ∧ Api.JSON_parse (Runtime := Api.exampleRuntime) "{" = inl "Unexpected token"
  ∧ Api.handler (H := Api.exampleRuntime) (Api.mkEvent (Some "{")) ["EARLIER"]
    = (inr (Api.mkResponse (Api.JsonNum 500) Api.corsHeaders
              (Api.JSON_stringify (Runtime := Api.exampleRuntime)
                 (Api.JsonObj
                    [ ("status", Api.JsonNum 500);
                      ("message", Api.JsonStr "Internal Server Error");
                      ("error", Api.JsonStr "Unexpected token") ]))),
       ["EARLIER"])
  ∧ (Api.handler (H := Api.exampleRuntime) (Api.mkEvent None) ["EARLIER"]).2
    = ["EARLIER"; "{}"].
Proof.
  assert ("{" ≠ "") as Hne by discriminate.
  pose proof (api_body_edge_cases (H := Api.exampleRuntime) ["EARLIER"] "{"
                "Unexpected token") as (_ & Hempty & Hbad).
  split; [exact Hne|]. split; [reflexivity|].
  split; [exact (Hbad Hne eq_refl)|exact Hempty].
Defined.
